(** * Agent Observatory API: session log summaries

    A shallow embedding of [src/server.js]: the summarizer
    [parseSessionFile], the filename helper [extractSessionId] and the
    three routes ([GET /api/sessions], [GET /api/sessions/:sessionId],
    [GET /api/stats]), followed by the properties of the summary that the
    specification states.

    Conventions of the embedding.
    - A decoded log line is an arbitrary JavaScript value ([value]); property
      reads, truthiness, [===], [+] and [>] follow ECMAScript on such values,
      and a [TypeError] is an explicit outcome ([Throw]).
    - Numbers are read in two ways.  In the summarizer as a whole they are
      exact rationals, which is enough for what depends on the sign and on
      the order of the totals only.  What depends on the rounding of a sum
      is stated on the accumulation pass read over the binary64 numbers
      ([value64]).  The runtime coercions between numbers and strings
      ([Number::toString], [StringToNumber]) are parameters of the
      development; they are only consulted when a token or cost field of the
      log is not a number.
    - Strings are sequences of code units below 256.
    - A time is a number of milliseconds, and a date holds a time within
      8.64e15 milliseconds of the epoch; a date built from another time is
      invalid.
    - The file system is a directory listing in which every entry carries the
      outcome of [fs.statSync] and of reading its lines, together with the
      function that says where a path leads. *)

From Stdlib Require Import List String Ascii Bool Arith ZArith QArith Lia.
From Stdlib Require Import Qminmax DecimalString.
From Stdlib Require Import Permutation Sorted.
From Stdlib Require Import Floats.
Import ListNotations.

#[local] Set Warnings "-register-all,-inexact-float".

Local Open Scope string_scope.
Local Open Scope list_scope.

(** ** JavaScript values *)

Inductive value : Type :=
| VUndef
| VNull
| VBool (b : bool)
| VNum (q : Q)
| VNaN
| VStr (s : string)
| VArr (elems : list value)
| VObj (props : list (string * value)).

(** ** Exceptions *)

Inductive error : Type :=
| TypeError
| RangeError
| IOError.

Inductive result (A : Type) : Type :=
| Ok (a : A)
| Throw (e : error).

Arguments Ok {A} a.
Arguments Throw {A} e.

Definition bind {A B : Type} (c : result A) (k : A -> result B) : result B :=
  match c with
  | Ok a => k a
  | Throw e => Throw e
  end.

Notation "x <- c ;; k" := (bind c (fun x => k))
  (at level 61, c at next level, right associativity).

(** ** Strings *)

Definition is_ws (c : ascii) : bool :=
  let n := nat_of_ascii c in
  Nat.eqb n 9 || Nat.eqb n 10 || Nat.eqb n 11 || Nat.eqb n 12 || Nat.eqb n 13
  || Nat.eqb n 32 || Nat.eqb n 160.

Definition startsWith (pre s : string) : bool := String.prefix pre s.

(** [s.includes(needle)] *)
Fixpoint includes (needle s : string) : bool :=
  if String.prefix needle s then true
  else match s with
       | EmptyString => false
       | String _ s' => includes needle s'
       end.

(** [s.endsWith(suf)] *)
Fixpoint endsWith (suf s : string) : bool :=
  if String.eqb suf s then true
  else match s with
       | EmptyString => false
       | String _ s' => endsWith suf s'
       end.

Fixpoint trimStart (s : string) : string :=
  match s with
  | String c s' => if is_ws c then trimStart s' else s
  | EmptyString => EmptyString
  end.

(** [trimEnd] keeps a character when it is not white space or when something
    is kept after it. *)
Fixpoint trimEnd (s : string) : string :=
  match s with
  | EmptyString => EmptyString
  | String c s' =>
      match trimEnd s' with
      | EmptyString => if is_ws c then EmptyString else String c EmptyString
      | r => String c r
      end
  end.

Definition trim (s : string) : string := trimEnd (trimStart s).

(** ** Property reads *)

Fixpoint lookup (k : string) (ps : list (string * value)) : value :=
  match ps with
  | [] => VUndef
  | (k', v) :: ps' => if String.eqb k k' then v else lookup k ps'
  end.

Definition has_own (k : string) (ps : list (string * value)) : bool :=
  existsb (fun p => String.eqb k (fst p)) ps.

Definition nullish (v : value) : bool :=
  match v with
  | VUndef | VNull => true
  | _ => false
  end.

(** [v?.k] and [v.k], for a name [k] that no built-in prototype defines (all
    the names the server reads: type, id, message, usage, ...).  A primitive
    has no such property; reading one of [null] or [undefined] throws. *)
Definition opt_get (k : string) (v : value) : value :=
  match v with
  | VObj ps => lookup k ps
  | _ => VUndef
  end.

Definition get (k : string) (v : value) : result value :=
  if nullish v then Throw TypeError else Ok (opt_get k v).

(** [v?.[0]] and [v[0]] *)
Definition opt_index0 (v : value) : value :=
  match v with
  | VArr (x :: _) => x
  | VStr (String c _) => VStr (String c EmptyString)
  | VObj ps => lookup "0" ps
  | _ => VUndef
  end.

Definition index0 (v : value) : result value :=
  if nullish v then Throw TypeError else Ok (opt_index0 v).

Definition truthy (v : value) : bool :=
  match v with
  | VUndef | VNull | VNaN => false
  | VBool b => b
  | VNum q => negb (Qeq_bool q 0)
  | VStr s => negb (String.eqb s "")
  | VArr _ | VObj _ => true
  end.

(** [v === 'lit'] *)
Definition str_eq (v : value) (lit : string) : bool :=
  match v with
  | VStr s => String.eqb s lit
  | _ => false
  end.

(** ** Characters of the two regular expressions *)

Definition code (c : ascii) : nat := nat_of_ascii c.

(** [[a-f0-9-]] *)
Definition is_id_char (c : ascii) : bool :=
  let n := code c in
  (Nat.leb 97 n && Nat.leb n 102) || (Nat.leb 48 n && Nat.leb n 57)
  || Nat.eqb n 45.

(** The class after [label]: a single quote (39), a double quote (34), a
    colon (58) or white space. *)
Definition in_sep_class (c : ascii) : bool :=
  let n := code c in
  Nat.eqb n 39 || Nat.eqb n 34 || Nat.eqb n 58 || is_ws c.

(** The captured class: anything but a quote, a closing brace (125) or a
    line feed (10). *)
Definition in_capture_class (c : ascii) : bool :=
  let n := code c in
  negb (Nat.eqb n 39 || Nat.eqb n 34 || Nat.eqb n 125 || Nat.eqb n 10).

Definition lower (c : ascii) : ascii :=
  let n := code c in
  if Nat.leb 65 n && Nat.leb n 90 then ascii_of_nat (n + 32) else c.

(** [pre] (already lower case) is a prefix of [s] up to the case of ASCII
    letters: the [i] flag. *)
Fixpoint prefix_ci (pre s : string) : bool :=
  match pre, s with
  | EmptyString, _ => true
  | String a pre', String b s' => Ascii.eqb a (lower b) && prefix_ci pre' s'
  | String _ _, EmptyString => false
  end.

Fixpoint drop (n : nat) (s : string) : string :=
  match n, s with
  | O, _ => s
  | S n', String _ s' => drop n' s'
  | S _, EmptyString => EmptyString
  end.

(** ** [extractSessionId] *)

Fixpoint span_id (s : string) : string * string :=
  match s with
  | String c s' =>
      if is_id_char c
      then let (id, rest) := span_id s' in (String c id, rest)
      else (EmptyString, s)
  | EmptyString => (EmptyString, EmptyString)
  end.

(** [filename.match(/^([a-f0-9-]+)\.jsonl/)], then the first group or the
    file name itself. *)
Definition extractSessionId (filename : string) : string :=
  let (id, rest) := span_id filename in
  if negb (String.eqb id "") && String.prefix ".jsonl" rest
  then id else filename.

(** ** The label pattern

    The word label without regard to case, one or more separators
    ([in_sep_class]), then a group of one or more characters of
    [in_capture_class]. *)

Fixpoint take_capture (s : string) : string :=
  match s with
  | String c s' => if in_capture_class c then String c (take_capture s') else ""
  | EmptyString => ""
  end.

(** The group needs at least one character. *)
Definition capture_at (s : string) : option string :=
  match take_capture s with
  | EmptyString => None
  | cap => Some cap
  end.

(** After one separator has been read: read greedily more of them, and give
    them back one at a time when the group cannot start. *)
Fixpoint after_sep (s : string) : option string :=
  match s with
  | String c s' =>
      if in_sep_class c
      then match after_sep s' with
           | Some cap => Some cap
           | None => capture_at s
           end
      else capture_at s
  | EmptyString => None
  end.

Definition match_label_here (s : string) : option string :=
  if prefix_ci "label" s
  then match drop 5 s with
       | String c s' => if in_sep_class c then after_sep s' else None
       | EmptyString => None
       end
  else None.

(** The leftmost match; the result is the first group. *)
Fixpoint match_label (s : string) : option string :=
  match match_label_here s with
  | Some cap => Some cap
  | None => match s with
            | String _ s' => match_label s'
            | EmptyString => None
            end
  end.

(** ** [parseInt] *)

Definition digit_value (radix : nat) (c : ascii) : option Z :=
  let n := code c in
  let d := if Nat.leb 48 n && Nat.leb n 57 then Some (n - 48)%nat
           else if Nat.leb 97 n && Nat.leb n 122 then Some (n - 87)%nat
           else if Nat.leb 65 n && Nat.leb n 90 then Some (n - 55)%nat
           else None in
  match d with
  | Some k => if Nat.ltb k radix then Some (Z.of_nat k) else None
  | None => None
  end.

(** The digits of the longest prefix of [s] in the given radix, folded from
    [acc]; [seen] records whether a digit was read. *)
Fixpoint read_digits (radix : nat) (s : string) (seen : bool) (acc : Z)
  : option Z :=
  match s with
  | String c s' =>
      match digit_value radix c with
      | Some d => read_digits radix s' true (acc * Z.of_nat radix + d)
      | None => if seen then Some acc else None
      end
  | EmptyString => if seen then Some acc else None
  end.

(** [parseInt(s)] with no radix argument; [None] is [NaN]. *)
Definition parseInt (s : string) : option Z :=
  let s1 := trimStart s in
  let (neg, s2) :=
    match s1 with
    | String c r => if Nat.eqb (code c) 45 then (true, r)
                    else if Nat.eqb (code c) 43 then (false, r)
                    else (false, s1)
    | EmptyString => (false, s1)
    end in
  let (radix, s3) :=
    if String.prefix "0x" s2 || String.prefix "0X" s2
    then (16%nat, drop 2 s2) else (10%nat, s2) in
  match read_digits radix s3 false 0%Z with
  | Some n => Some (if neg then (- n)%Z else n)
  | None => None
  end.

(** ** The file system and the summary *)

Inductive session_status : Type := idle | running | completed | archived.

(** What [fs.statSync] answers: the two times, in milliseconds since the
    epoch, from which the dates [stats.mtime] and [stats.birthtime] are
    built. *)
Record stats : Type := { mtime : Z; birthtime : Z }.

(** A [Date] holds a time of at most 8.64e15 milliseconds on either side of
    the epoch.  A date built from a time outside of this range is an invalid
    date: its [getTime()] is [NaN], so that every comparison with it is
    false, and its [toISOString()] throws a [RangeError]. *)
Definition MAX_TIME : Z := 8640000000000000.

Definition valid_time (t : Z) : bool :=
  ((- MAX_TIME <=? t) && (t <=? MAX_TIME))%Z.

(** [date.toISOString()], the string being kept as the time it prints. *)
Definition toISOString (t : Z) : result Z :=
  if valid_time t then Ok t else Throw RangeError.

(** [date.getTime() < cutoff] *)
Definition time_lt (t cutoff : Z) : bool := valid_time t && (t <? cutoff)%Z.

(** [date >= today] *)
Definition time_ge (t today : Z) : bool := valid_time t && (today <=? t)%Z.

(** One line of a log file, as the reading loop sees it: blank after
    trimming, rejected by [JSON.parse], or decoded. *)
Inductive line : Type :=
| Blank
| Malformed
| Json (v : value).

(** A directory entry: [stat] is [None] when [fs.statSync] throws, [content]
    is [None] when the file cannot be read. *)
Record file : Type := {
  name : string;
  stat : option stats;
  content : option (list line)
}.

(** The summary.  The two timestamps are kept in milliseconds since the
    epoch rather than as the ISO strings that print them, and [filePath] as
    the base name of the file. *)
Record summary : Type := {
  sessionId : string;
  sessionKey : string;
  label : value;
  model : value;
  totalTokens : value;
  totalCost : value;
  status : session_status;
  messageCount : nat;
  lastUpdated : Z;
  createdAt : Z;
  filePath : string;
  isDeleted : bool
}.

(** The four variables of the accumulation loop. *)
Record acc : Type := {
  acc_totalTokens : value;
  acc_totalCost : value;
  acc_model : value;
  acc_lastStatus : session_status
}.

Definition acc0 : acc :=
  {| acc_totalTokens := VNum 0; acc_totalCost := VNum 0;
     acc_model := VStr "unknown"; acc_lastStatus := idle |}.

(** [lines.push(JSON.parse(line))] for the lines that are not blank, a
    failed decode being skipped. *)
Fixpoint decoded (ls : list line) : list value :=
  match ls with
  | [] => []
  | Json v :: ls' => v :: decoded ls'
  | _ :: ls' => decoded ls'
  end.

(** [Array.prototype.find] and [filter] with a callback that may throw;
    [find] answers [undefined] when nothing is found. *)
Fixpoint find_m (p : value -> result bool) (l : list value) : result value :=
  match l with
  | [] => Ok VUndef
  | x :: l' => b <- p x ;; if b then Ok x else find_m p l'
  end.

Fixpoint filter_m (p : value -> result bool) (l : list value)
  : result (list value) :=
  match l with
  | [] => Ok []
  | x :: l' =>
      b <- p x ;; r <- filter_m p l' ;; Ok (if b then x :: r else r)
  end.

Fixpoint fold_m {A : Type} (f : A -> value -> result A) (l : list value)
  (a : A) : result A :=
  match l with
  | [] => Ok a
  | x :: l' => a' <- f a x ;; fold_m f l' a'
  end.

Definition Qlt_bool (x y : Q) : bool :=
  match (x ?= y)%Q with
  | Lt => true
  | _ => false
  end.

(** [text?.includes(needle)]: a string method, an array method, and not a
    function on anything else. *)
Definition call_includes (text : value) (needle : string) : result value :=
  match text with
  | VUndef | VNull => Ok VUndef
  | VStr s => Ok (VBool (includes needle s))
  | VArr xs => Ok (VBool (existsb (fun x => str_eq x needle) xs))
  | _ => Throw TypeError
  end.

(** [text.match(pattern)]: only strings have the method. *)
Definition call_match (text : value) : result (option string) :=
  match text with
  | VStr s => Ok (match_label s)
  | _ => Throw TypeError
  end.

(** Stable insertion in descending order of [lastUpdated], the order of
    [sessions.sort((a, b) => new Date(b.lastUpdated) - new Date(a.lastUpdated))]. *)
Fixpoint insert_desc (x : summary) (l : list summary) : list summary :=
  match l with
  | [] => [x]
  | y :: l' =>
      if (lastUpdated y <=? lastUpdated x)%Z then x :: y :: l'
      else y :: insert_desc x l'
  end.

Fixpoint sort_desc (l : list summary) : list summary :=
  match l with
  | [] => []
  | x :: l' => insert_desc x (sort_desc l')
  end.

(** The sessions directory as [fs.readdirSync] lists it; the call throws on
    [Unreadable]. *)
Inductive directory : Type :=
| Unreadable
| Dir (entries : list file).

Definition readdirSync (d : directory) : result (list file) :=
  match d with
  | Unreadable => Throw IOError
  | Dir entries => Ok entries
  end.

Definition statSync (f : file) : result stats :=
  match stat f with
  | Some st => Ok st
  | None => Throw IOError
  end.

(** The paths of the store.  The get route joins the identifier of the
    request into a path, [path.join(SESSIONS_DIR, id + '.jsonl')], which
    leads below or outside of the sessions directory when the identifier
    holds a separator.  A store is read through the function that gives,
    for a path taken from the sessions directory, the file it leads to; the
    [name] of that file is its base name. *)
Definition paths : Type := string -> option file.

(** [fs.existsSync(path)]: the path leads to a file that can be stat-ed. *)
Definition exists_at (at_path : paths) (p : string) : bool :=
  match at_path p with
  | Some f => match stat f with Some _ => true | None => false end
  | None => false
  end.

(** The paths of a sessions directory without subdirectories, asked with
    plain names: a name leads to the entry of that name. *)
Definition lookup_file (d : directory) (n : string) : option file :=
  match d with
  | Unreadable => None
  | Dir entries => find (fun f => String.eqb (name f) n) entries
  end.

(** [fs.existsSync] of an entry name: the entry is there and can be
    stat-ed. *)
Definition existsSync (d : directory) (n : string) : bool :=
  exists_at (lookup_file d) n.

(** What a route answers. *)
Inductive response (A : Type) : Type :=
| Ok200 (body : A)
| NotFound404
| Error500.

Arguments Ok200 {A} body.
Arguments NotFound404 {A}.
Arguments Error500 {A}.

Record listing : Type := { count : nat; sessions : list summary }.

(** The two filters on the names of the directory. *)
Definition is_candidate (includeArchived : bool) (f : string) : bool :=
  (endsWith ".jsonl" f || (includeArchived && includes ".jsonl.deleted" f))
  && (negb (endsWith ".lock" f) && negb (endsWith ".json" f)).

Definition DEFAULT_ACTIVE_MINUTES : Z := 1440.

(** [parseInt(q) || 1440], [q] already a string. *)
Definition window_minutes (q : string) : Z :=
  match parseInt q with
  | Some n => if (n =? 0)%Z then DEFAULT_ACTIVE_MINUTES else n
  | None => DEFAULT_ACTIVE_MINUTES
  end.

(** ** Sample logs

    Closed inputs on which the theorems are exercised.  Their token and
    cost fields are numbers and their session ids are strings, so no
    summary of them consults the coercions of the runtime; the two
    functions below stand in for these. *)

Definition unused_toString (_ : Q) : string := "".

Definition unused_toNumber (_ : string) : option Q := None.

Definition message_event (fields : list (string * value)) : value :=
  VObj [("type", VStr "message"); ("message", VObj fields)].

Definition custom_event (customType : string)
  (data : list (string * value)) : value :=
  VObj [("type", VStr "custom"); ("customType", VStr customType);
        ("data", VObj data)].

Definition log_file (n : string) (m : Z) (events : list value) : file :=
  {| name := n;
     stat := Some {| mtime := m; birthtime := 0 |};
     content := Some (map Json events) |}.

(** One message: 150 tokens, stopped for a tool call. *)
Definition running_events : list value :=
  [message_event [("usage", VObj [("totalTokens", VNum 150)]);
                  ("stopReason", VStr "toolUse")]].

Definition running_log : file := log_file "0a1b.jsonl" 1000 running_events.

(** One message whose usage reports no tokens, stopped normally. *)
Definition zero_usage_events : list value :=
  [message_event [("usage", VObj [("totalTokens", VNum 0)]);
                  ("stopReason", VStr "stop")]].

Definition zero_usage_log : file :=
  log_file "0a1b.jsonl" 1000 zero_usage_events.

(** An archived log with 500 tokens. *)
Definition archived_log : file :=
  log_file "0a1b.jsonl.deleted.2026-02-11" 1000
    [message_event [("usage", VObj [("totalTokens", VNum 500)]);
                    ("stopReason", VStr "stop")]].

(** Usage objects with both fields, with the token count only and with the
    cost only, and a line that is no message. *)
Definition partial_usage_events : list value :=
  [message_event [("usage", VObj [("totalTokens", VNum 100);
                                  ("cost", VObj [("total", VNum (1 # 4))])])];
   custom_event "note" [];
   message_event [("usage", VObj [("totalTokens", VNum 50)])];
   message_event [("usage", VObj [("cost", VObj [("total", VNum (1 # 2))])])]].

Definition partial_usage_log : file :=
  log_file "0a1b.jsonl" 1000 partial_usage_events.

(** A message whose usage reports a negative token count and cost. *)
Definition negative_usage_log : file :=
  log_file "0a1b.jsonl" 1000
    [message_event [("usage", VObj [("totalTokens", VNum (-5));
                                    ("cost", VObj [("total", VNum (-1))])])]].

(** A model snapshot in front of the message that names a model. *)
Definition snapshot : value :=
  custom_event "model-snapshot" [("modelId", VStr "model-b")].

Definition model_message : value := message_event [("model", VStr "model-a")].

Definition snapshot_first_log : file :=
  log_file "0a1b.jsonl" 1000 [snapshot; model_message].

(** A tagged event without [modelId] and without the [custom] type, a
    message that names a model, then a snapshot with a [modelId]. *)
Definition bare_snapshot : value :=
  VObj [("customType", VStr "model-snapshot")].

Definition empty_snapshot : value := custom_event "model-snapshot" [].

Definition two_snapshots_log (first : value) : file :=
  log_file "0a1b.jsonl" 1000 [first; model_message; snapshot].

(** A sub-agent session with a task text and an explicit label. *)
Definition session_event : value :=
  VObj [("type", VStr "session"); ("id", VStr "subagent:42")].

Definition task_message : value :=
  message_event
    [("content",
      VArr [VObj [("type", VStr "text");
                  ("text", VStr "Your Task label: indexer")]])].

Definition label_event : value :=
  custom_event "spawn" [("label", VStr "Refactor Task")].

Definition labelled_subagent_log : file :=
  log_file "0a1b.jsonl" 1000 [session_event; task_message; label_event].

(** A directory with two logs that can be summarized and one whose second
    line decodes to [null]. *)
Definition corrupt_log : file :=
  {| name := "0c3d.jsonl";
     stat := Some {| mtime := 1500; birthtime := 0 |};
     content := Some [Json (message_event []); Json VNull] |}.

Definition mixed_directory : list file :=
  [running_log; corrupt_log; log_file "0e5f.jsonl" 1200 partial_usage_events].

(** A directory that only holds the archived variant of a session. *)
Definition archive_only_directory : list file := [archived_log].

(** A store whose sessions directory is the one above, next to a
    subdirectory [sub] that holds the log [0e5f.jsonl]. *)
Definition nested_log : file :=
  log_file "0e5f.jsonl" 1200 partial_usage_events.

Definition nested_paths : paths :=
  fun p => if String.eqb p "sub/0e5f.jsonl" then Some nested_log
           else lookup_file (Dir archive_only_directory) p.

(** A directory with two logs next to an entry whose metadata cannot be
    read, such as a link left behind by a log that was moved away. *)
Definition dangling_log : file :=
  {| name := "0c3d.jsonl"; stat := None; content := None |}.

Definition dangling_directory : list file :=
  [running_log; dangling_log; log_file "0e5f.jsonl" 1200 partial_usage_events].

(** A log whose modification time is before the first time that a date can
    hold. *)
Definition ancient_log : file :=
  {| name := "0d4e.jsonl";
     stat := Some {| mtime := -9000000000000000; birthtime := 0 |};
     content := Some (map Json running_events) |}.

(** An archived log that holds a note and no message. *)
Definition notes_only_log : file :=
  log_file "0a1b.jsonl.deleted.2026-02-11" 1000 [custom_event "note" []].

(** A log with a blank line and a truncated line only. *)
Definition blank_log : file :=
  {| name := "0a1b.jsonl";
     stat := Some {| mtime := 1000; birthtime := 900 |};
     content := Some [Blank; Malformed] |}.

(** ** The accumulation pass over IEEE doubles

    The totals of a summary are sums of doubles.  For what depends on the
    rounding of these sums, the filter and the loop of [parseSessionFile]
    are read here over values whose numbers are the binary64 numbers, the
    infinities and [NaN] included, with the addition of IEEE 754 (rounding
    to nearest, ties to even).  The definitions carry the names of the
    summarizer below with the mark 64. *)

Inductive value64 : Type :=
| FUndef
| FNull
| FBool (b : bool)
| FNum (x : float)
| FStr (s : string)
| FArr (elems : list value64)
| FObj (props : list (string * value64)).

Fixpoint lookup64 (k : string) (ps : list (string * value64)) : value64 :=
  match ps with
  | [] => FUndef
  | (k', v) :: ps' => if String.eqb k k' then v else lookup64 k ps'
  end.

Definition has_own64 (k : string) (ps : list (string * value64)) : bool :=
  existsb (fun p => String.eqb k (fst p)) ps.

Definition nullish64 (v : value64) : bool :=
  match v with
  | FUndef | FNull => true
  | _ => false
  end.

Definition opt_get64 (k : string) (v : value64) : value64 :=
  match v with
  | FObj ps => lookup64 k ps
  | _ => FUndef
  end.

Definition get64 (k : string) (v : value64) : result value64 :=
  if nullish64 v then Throw TypeError else Ok (opt_get64 k v).

(** The falsy numbers are [0], [-0] and [NaN]. *)
Definition truthy64 (v : value64) : bool :=
  match v with
  | FUndef | FNull => false
  | FBool b => b
  | FNum x => negb (PrimFloat.eqb x 0 || PrimFloat.is_nan x)
  | FStr s => negb (String.eqb s "")
  | FArr _ | FObj _ => true
  end.

Definition str_eq64 (v : value64) (lit : string) : bool :=
  match v with
  | FStr s => String.eqb s lit
  | _ => false
  end.

Fixpoint filter_m64 (p : value64 -> result bool) (l : list value64)
  : result (list value64) :=
  match l with
  | [] => Ok []
  | x :: l' =>
      b <- p x ;; r <- filter_m64 p l' ;; Ok (if b then x :: r else r)
  end.

Fixpoint fold_m64 {A : Type} (f : A -> value64 -> result A)
  (l : list value64) (a : A) : result A :=
  match l with
  | [] => Ok a
  | x :: l' => a' <- f a x ;; fold_m64 f l' a'
  end.

Record acc64 : Type := {
  acc64_totalTokens : value64;
  acc64_totalCost : value64;
  acc64_model : value64;
  acc64_lastStatus : session_status
}.

Definition acc64_zero : acc64 :=
  {| acc64_totalTokens := FNum 0; acc64_totalCost := FNum 0;
     acc64_model := FStr "unknown"; acc64_lastStatus := idle |}.

Section Coercions64.

Variable Number_toString : float -> string.
Variable String_toNumber : string -> float.

Fixpoint to_string64 (v : value64) : result string :=
  match v with
  | FUndef => Ok "undefined"
  | FNull => Ok "null"
  | FBool b => Ok (if b then "true" else "false")
  | FNum x => Ok (Number_toString x)
  | FStr s => Ok s
  | FArr elems =>
      (fix join (l : list value64) : result string :=
         match l with
         | [] => Ok ""
         | x :: l' =>
             sx <- (if nullish64 x then Ok "" else to_string64 x) ;;
             match l' with
             | [] => Ok sx
             | _ :: _ => r <- join l' ;; Ok (sx ++ "," ++ r)%string
             end
         end) elems
  | FObj ps =>
      if has_own64 "toString" ps then Throw TypeError
      else Ok "[object Object]"
  end.

Definition to_primitive64 (v : value64) : result value64 :=
  match v with
  | FArr _ | FObj _ => s <- to_string64 v ;; Ok (FStr s)
  | _ => Ok v
  end.

(** [ToNumber] of a primitive. *)
Definition to_number64 (p : value64) : float :=
  match p with
  | FNull => 0%float
  | FBool b => if b then 1%float else 0%float
  | FNum x => x
  | FStr s => String_toNumber s
  | _ => PrimFloat.nan
  end.

Definition is_string64 (v : value64) : bool :=
  match v with
  | FStr _ => true
  | _ => false
  end.

(** [a + b]: the sum of two numbers is the double nearest to it. *)
Definition js_add64 (a b : value64) : result value64 :=
  pa <- to_primitive64 a ;;
  pb <- to_primitive64 b ;;
  if is_string64 pa || is_string64 pb
  then sa <- to_string64 pa ;; sb <- to_string64 pb ;;
       Ok (FStr (sa ++ sb)%string)
  else Ok (FNum (PrimFloat.add (to_number64 pa) (to_number64 pb))).

(** [l.type === 'message' && l.message] *)
Definition is_message64 (l : value64) : result bool :=
  t <- get64 "type" l ;;
  if str_eq64 t "message" then m <- get64 "message" l ;; Ok (truthy64 m)
  else Ok false.

(** The body of the loop over [messagelines]. *)
Definition step64 (a : acc64) (l : value64) : result acc64 :=
  msg <- get64 "message" l ;;
  let usage := opt_get64 "usage" msg in
  tc <- (if truthy64 usage
         then tt <- get64 "totalTokens" usage ;;
              tokens <- js_add64 (acc64_totalTokens a)
                          (if truthy64 tt then tt else FNum 0) ;;
              c <- get64 "cost" usage ;;
              let total := opt_get64 "total" c in
              cost <- (if truthy64 total
                       then js_add64 (acc64_totalCost a) total
                       else Ok (acc64_totalCost a)) ;;
              Ok (tokens, cost)
         else Ok (acc64_totalTokens a, acc64_totalCost a)) ;;
  let m := opt_get64 "model" msg in
  let sr := opt_get64 "stopReason" msg in
  Ok {| acc64_totalTokens := fst tc;
        acc64_totalCost := snd tc;
        acc64_model := if truthy64 m then m else acc64_model a;
        acc64_lastStatus :=
          if truthy64 sr
          then (if str_eq64 sr "toolUse" then running else completed)
          else acc64_lastStatus a |}.

Definition accumulate64 (messagelines : list value64) : result acc64 :=
  fold_m64 step64 messagelines acc64_zero.

End Coercions64.

(** The readings of the specification. *)

Definition payload64 (l : value64) : value64 :=
  if str_eq64 (opt_get64 "type" l) "message" then opt_get64 "message" l
  else FUndef.

Definition usage_of64 (l : value64) : value64 :=
  opt_get64 "usage" (payload64 l).

Definition token_field64 (l : value64) : value64 :=
  opt_get64 "totalTokens" (usage_of64 l).

Definition cost_field64 (l : value64) : value64 :=
  opt_get64 "total" (opt_get64 "cost" (usage_of64 l)).

Definition number_or_absent64 (v : value64) : Prop :=
  match v with
  | FUndef | FNull | FNum _ => True
  | _ => False
  end.

Definition well_typed_usage64 (lines : list value64) : Prop :=
  forall l, In l lines ->
    number_or_absent64 (token_field64 l)
    /\ number_or_absent64 (cost_field64 l).

(** What a usage field counts for: its number when it is present, and
    zero when it is absent; a zero of either sign and [NaN] count for the
    positive zero. *)
Definition present_or_zero (v : value64) : float :=
  match v with
  | FNum x => if PrimFloat.eqb x 0 || PrimFloat.is_nan x then 0%float else x
  | _ => 0%float
  end.

(** The token counts of the message events that carry usage, an absent
    count being zero, and the cost totals that are present, both in the
    order of the log. *)
Definition token_terms (lines : list value64) : list float :=
  map (fun l => present_or_zero (token_field64 l))
    (filter (fun l => truthy64 (usage_of64 l)) lines).

Definition cost_terms (lines : list value64) : list float :=
  map (fun l => present_or_zero (cost_field64 l))
    (filter (fun l => truthy64 (cost_field64 l)) lines).

(** The sum of a list of doubles as the loop takes it: from zero, one term
    after the other, every addition rounded. *)
Definition running_sum (terms : list float) : float :=
  fold_left PrimFloat.add terms 0%float.

(** The rational that a finite double stands for. *)
Definition exact_value (x : float) : option Q :=
  match Prim2SF x with
  | S754_zero _ => Some 0%Q
  | S754_finite s m e =>
      Some ((if s then -1 else 1) * inject_Z (Zpos m) * 2 ^ e)%Q
  | _ => None
  end.

(** The sum of finite doubles, without any rounding. *)
Fixpoint exact_sum (terms : list float) : option Q :=
  match terms with
  | [] => Some 0%Q
  | x :: terms' =>
      match exact_value x, exact_sum terms' with
      | Some q, Some r => Some (q + r)%Q
      | _, _ => None
      end
  end.

(** A total that is the exact sum of its terms, when these are finite. *)
Definition sums_exactly (total : value64) (terms : list float) : Prop :=
  forall r, exact_sum terms = Some r ->
    exists x q, total = FNum x /\ exact_value x = Some q /\ (q == r)%Q.

(** Sample events: costs of one tenth and of two tenths, token counts of
    one hundred and of fifty, a line that is no message and a message
    whose usage is empty. *)
Definition message_event64 (fields : list (string * value64)) : value64 :=
  FObj [("type", FStr "message"); ("message", FObj fields)].

Definition tenths : list value64 :=
  [message_event64 [("usage", FObj [("totalTokens", FNum 100);
                                    ("cost", FObj [("total", FNum 0.1)])])];
   FObj [("type", FStr "custom")];
   message_event64 [("usage", FObj [("totalTokens", FNum 50);
                                    ("cost", FObj [("total", FNum 0.2)])])];
   message_event64 [("usage", FObj [])]].

Definition unused_toString64 (_ : float) : string := "".

Definition unused_toNumber64 (_ : string) : float := PrimFloat.nan.

(** ** The summarizer, over the runtime's number and string coercions *)

Section Summarizer.

Variable Number_toString : Q -> string.
(** [None] is [NaN]. *)
Variable String_toNumber : string -> option Q.

(** [ToString].  An array joins its elements with commas, [null] and
    [undefined] elements printing as nothing; a plain object prints as
    [[object Object]] unless an own property shadows [toString], in which
    case no conversion exists. *)
Fixpoint to_string (v : value) : result string :=
  match v with
  | VUndef => Ok "undefined"
  | VNull => Ok "null"
  | VBool b => Ok (if b then "true" else "false")
  | VNum q => Ok (Number_toString q)
  | VNaN => Ok "NaN"
  | VStr s => Ok s
  | VArr elems =>
      (fix join (l : list value) : result string :=
         match l with
         | [] => Ok ""
         | x :: l' =>
             sx <- (if nullish x then Ok "" else to_string x) ;;
             match l' with
             | [] => Ok sx
             | _ :: _ => r <- join l' ;; Ok (sx ++ "," ++ r)%string
             end
         end) elems
  | VObj ps =>
      if has_own "toString" ps then Throw TypeError
      else Ok "[object Object]"
  end.

Definition to_primitive (v : value) : result value :=
  match v with
  | VArr _ | VObj _ => s <- to_string v ;; Ok (VStr s)
  | _ => Ok v
  end.

(** [ToNumber] of a primitive. *)
Definition to_number (p : value) : option Q :=
  match p with
  | VNull => Some 0%Q
  | VBool b => Some (if b then 1%Q else 0%Q)
  | VNum q => Some q
  | VStr s => String_toNumber s
  | _ => None
  end.

Definition is_string (v : value) : bool :=
  match v with
  | VStr _ => true
  | _ => false
  end.

(** [a + b], two numbers being added exactly ([js_add64] rounds). *)
Definition js_add (a b : value) : result value :=
  pa <- to_primitive a ;;
  pb <- to_primitive b ;;
  if is_string pa || is_string pb
  then sa <- to_string pa ;; sb <- to_string pb ;; Ok (VStr (sa ++ sb)%string)
  else match to_number pa, to_number pb with
       | Some x, Some y => Ok (VNum (x + y))
       | _, _ => Ok VNaN
       end.

(** [v > 0] *)
Definition gt_zero (v : value) : result bool :=
  p <- to_primitive v ;;
  Ok (match to_number p with
      | Some q => Qlt_bool 0 q
      | None => false
      end).

(** [l.type === 'session'] *)
Definition is_session (l : value) : result bool :=
  t <- get "type" l ;; Ok (str_eq t "session").

(** [l.type === 'message' && l.message] *)
Definition is_message (l : value) : result bool :=
  t <- get "type" l ;;
  if str_eq t "message" then m <- get "message" l ;; Ok (truthy m)
  else Ok false.

(** [l.type === 'custom' && l.data?.label] *)
Definition is_label_event (l : value) : result bool :=
  t <- get "type" l ;;
  if str_eq t "custom"
  then d <- get "data" l ;; Ok (truthy (opt_get "label" d))
  else Ok false.

(** [l.type === 'message' &&
     l.message?.content?.[0]?.text?.includes('Your Task')] *)
Definition is_task_line (l : value) : result bool :=
  t <- get "type" l ;;
  if str_eq t "message"
  then m <- get "message" l ;;
       r <- call_includes
              (opt_get "text" (opt_index0 (opt_get "content" m))) "Your Task" ;;
       Ok (truthy r)
  else Ok false.

(** [l.customType === 'model-snapshot'] *)
Definition is_model_snapshot (l : value) : result bool :=
  c <- get "customType" l ;; Ok (str_eq c "model-snapshot").

(** The session key: the id of the first session event behind the fixed
    prefix, or else the session id. *)
Definition session_key (lines : list value) (sessionId : string)
  : result string :=
  sessionLine <- find_m is_session lines ;;
  let id := opt_get "id" sessionLine in
  if truthy id then s <- to_string id ;; Ok ("agent:main:" ++ s)%string
  else Ok sessionId.

(** The body of the loop over [messagelines]. *)
Definition step (a : acc) (l : value) : result acc :=
  msg <- get "message" l ;;
  let usage := opt_get "usage" msg in
  tc <- (if truthy usage
         then tt <- get "totalTokens" usage ;;
              tokens <- js_add (acc_totalTokens a)
                          (if truthy tt then tt else VNum 0) ;;
              c <- get "cost" usage ;;
              let total := opt_get "total" c in
              cost <- (if truthy total then js_add (acc_totalCost a) total
                       else Ok (acc_totalCost a)) ;;
              Ok (tokens, cost)
         else Ok (acc_totalTokens a, acc_totalCost a)) ;;
  let m := opt_get "model" msg in
  let sr := opt_get "stopReason" msg in
  Ok {| acc_totalTokens := fst tc;
        acc_totalCost := snd tc;
        acc_model := if truthy m then m else acc_model a;
        acc_lastStatus :=
          if truthy sr
          then (if str_eq sr "toolUse" then running else completed)
          else acc_lastStatus a |}.

Definition accumulate (messagelines : list value) : result acc :=
  fold_m step messagelines acc0.

(** The label found in the task text of a sub-agent. *)
Definition task_label (lines : list value) : result value :=
  taskLine <- find_m is_task_line lines ;;
  if truthy taskLine
  then m <- get "message" taskLine ;;
       c <- get "content" m ;;
       e <- index0 c ;;
       text <- get "text" e ;;
       taskMatch <- call_match text ;;
       Ok (match taskMatch with
           | Some cap => VStr (trim cap)
           | None => VStr "Sub-agent"
           end)
  else Ok (VStr "Sub-agent").

Definition resolve_label (lines : list value) (sessionKey : string)
  : result value :=
  spawnLine <- find_m is_label_event lines ;;
  let lbl := opt_get "label" (opt_get "data" spawnLine) in
  if truthy lbl then Ok lbl
  else if includes "subagent" sessionKey then task_label lines
  else Ok (VStr "Main").

Definition resolve_model (lines : list value) (scanned : value)
  : result value :=
  modelLine <- find_m is_model_snapshot lines ;;
  let id := opt_get "modelId" (opt_get "data" modelLine) in
  Ok (if truthy id then id else scanned).

Definition resolve_status (isDeleted : bool) (totalTokens : value)
  (lastStatus : session_status) : result session_status :=
  positive <- gt_zero totalTokens ;;
  Ok (if positive && negb isDeleted then lastStatus
      else if isDeleted then archived
      else idle).

Definition readLines (f : file) : result (list value) :=
  match content f with
  | Some ls => Ok (decoded ls)
  | None => Throw IOError
  end.

Definition parseSessionFile (f : file) : result summary :=
  st <- statSync f ;;
  let filename := name f in
  let sessionId := extractSessionId filename in
  let isDeleted := includes ".deleted" filename in
  lines <- readLines f ;;
  sessionKey <- session_key lines sessionId ;;
  messagelines <- filter_m is_message lines ;;
  a <- accumulate messagelines ;;
  label <- resolve_label lines sessionKey ;;
  model <- resolve_model lines (acc_model a) ;;
  status <- resolve_status isDeleted (acc_totalTokens a) (acc_lastStatus a) ;;
  lastUpdated <- toISOString (mtime st) ;;
  createdAt <- toISOString (birthtime st) ;;
  Ok {| sessionId := sessionId;
        sessionKey := sessionKey;
        label := label;
        model := model;
        totalTokens := acc_totalTokens a;
        totalCost := acc_totalCost a;
        status := status;
        messageCount := List.length messagelines;
        lastUpdated := lastUpdated;
        createdAt := createdAt;
        filePath := filename;
        isDeleted := isDeleted |}.

(** ** [GET /api/sessions] *)

(** The loop over the candidate files.  [console] collects the names of the
    files whose error was logged; the call to [fs.statSync] is outside the
    inner [try]. *)
Fixpoint scan (cutoff : Z) (files : list file) (sessions : list summary)
  (console : list string) : result (list summary) * list string :=
  match files with
  | [] => (Ok sessions, console)
  | f :: rest =>
      match statSync f with
      | Throw e => (Throw e, console)
      | Ok st =>
          if time_lt (mtime st) cutoff then scan cutoff rest sessions console
          else match parseSessionFile f with
               | Ok session => scan cutoff rest (sessions ++ [session]) console
               | Throw _ => scan cutoff rest sessions (console ++ [name f])
               end
      end
  end.

Definition candidates (includeArchived : bool) (entries : list file)
  : list file :=
  filter (fun f => is_candidate includeArchived (name f)) entries.

(** The route: [qActive] and [qArchived] are [req.query.activeMinutes] and
    [req.query.includeArchived], [now] is [Date.now()].  The answer comes
    with what was written to the console. *)
Definition list_sessions (qActive qArchived : value) (now : Z)
  (d : directory) : response listing * list string :=
  match to_string qActive with
  | Throw _ => (Error500, [])
  | Ok q =>
      let activeMinutes := window_minutes q in
      let includeArchived := negb (str_eq qArchived "false") in
      let cutoff := (now - activeMinutes * 60 * 1000)%Z in
      match readdirSync d with
      | Throw _ => (Error500, [])
      | Ok entries =>
          match scan cutoff (candidates includeArchived entries) [] [] with
          | (Ok sessions, console) =>
              let sorted := sort_desc sessions in
              (Ok200 {| count := List.length sorted; sessions := sorted |},
               console)
          | (Throw _, console) => (Error500, console)
          end
      end
  end.

(** ** [GET /api/sessions/:sessionId] *)

Definition respond (r : result summary) : response summary :=
  match r with
  | Ok session => Ok200 session
  | Throw _ => Error500
  end.

(** [parseSessionFile(path)] *)
Definition parse_at (at_path : paths) (p : string) : result summary :=
  match at_path p with
  | Some f => parseSessionFile f
  | None => Throw IOError
  end.

(** The route: [at_path] says where the path of the active log leads, [d]
    is the sessions directory that the fallback lists. *)
Definition get_session_at (at_path : paths) (sessionId : string)
  (d : directory) : response summary :=
  let active := (sessionId ++ ".jsonl")%string in
  if exists_at at_path active then respond (parse_at at_path active)
  else match readdirSync d with
       | Throw _ => Error500
       | Ok files =>
           match find (fun f => startsWith (sessionId ++ ".jsonl.deleted")
                                  (name f)) files with
           | Some deletedFile => respond (parseSessionFile deletedFile)
           | None => NotFound404
           end
       end.

(** The route on a sessions directory without subdirectories, for an
    identifier without separators: the path of the active log leads to the
    entry of that name. *)
Definition get_session (sessionId : string) (d : directory)
  : response summary :=
  get_session_at (lookup_file d) sessionId d.

(** ** The vocabulary of the specification

    Pure readings of a decoded log, in the words of the specification; the
    theorems below relate them to what [parseSessionFile] computes. *)

Definition lines_of (f : file) : list value :=
  match content f with
  | Some ls => decoded ls
  | None => []
  end.

(** The message payload of a [message] event; [undefined] on any other
    line. *)
Definition payload (l : value) : value :=
  if str_eq (opt_get "type" l) "message" then opt_get "message" l
  else VUndef.

(** A [message] event that carries a non-null payload. *)
Definition is_message_event (l : value) : bool :=
  str_eq (opt_get "type" l) "message" && negb (nullish (opt_get "message" l)).

Definition usage_of (l : value) : value := opt_get "usage" (payload l).

Definition has_usage_message (lines : list value) : bool :=
  existsb (fun l => truthy (usage_of l)) lines.

Definition token_field (l : value) : value :=
  opt_get "totalTokens" (usage_of l).

Definition cost_field (l : value) : value :=
  opt_get "total" (opt_get "cost" (usage_of l)).

(** The last non-empty value that the payloads give to [field]. *)
Fixpoint last_observed (field : string) (lines : list value) : option value :=
  match lines with
  | [] => None
  | l :: rest =>
      match last_observed field rest with
      | Some v => Some v
      | None =>
          let v := opt_get field (payload l) in
          if truthy v then Some v else None
      end
  end.

Definition stop_status (stopReason : value) : session_status :=
  if str_eq stopReason "toolUse" then running else completed.

Definition last_stop_status (lines : list value) : session_status :=
  match last_observed "stopReason" lines with
  | Some sr => stop_status sr
  | None => idle
  end.

Definition last_message_model (lines : list value) : value :=
  match last_observed "model" lines with
  | Some m => m
  | None => VStr "unknown"
  end.

(** A field that is a number, or absent. *)
Definition number_or_absent (v : value) : Prop :=
  match v with
  | VUndef | VNull | VNum _ => True
  | _ => False
  end.

Definition number_or_zero (v : value) : Q :=
  match v with
  | VNum q => q
  | _ => 0%Q
  end.

Definition Qsum (l : list Q) : Q := fold_right Qplus 0%Q l.

Definition well_typed_usage (lines : list value) : Prop :=
  forall l, In l lines ->
    number_or_absent (token_field l) /\ number_or_absent (cost_field l).

(** A field that is a number not below zero, or absent. *)
Definition nonnegative_or_absent (v : value) : Prop :=
  match v with
  | VUndef | VNull => True
  | VNum q => (0 <= q)%Q
  | _ => False
  end.

Definition nonnegative_usage (lines : list value) : Prop :=
  forall l, In l lines ->
    nonnegative_or_absent (token_field l)
    /\ nonnegative_or_absent (cost_field l).

(** The lines over which the accumulation pass runs. *)
Definition messagelines (lines : list value) : list value :=
  filter (fun l => truthy (payload l)) lines.

Definition tokens_of (l : value) : Q := number_or_zero (token_field l).

Definition cost_of (l : value) : Q := number_or_zero (cost_field l).

(** The sums of the token counts and of the costs of a list of events. *)
Definition sum_tokens (ms : list value) : Q := Qsum (map tokens_of ms).

Definition sum_cost (ms : list value) : Q := Qsum (map cost_of ms).

Definition is_negative (v : value) : Prop :=
  match v with
  | VNum q => (q < 0)%Q
  | _ => False
  end.

(** A [custom] event with a non-empty [data.label]. *)
Definition label_bearing (l : value) : bool :=
  str_eq (opt_get "type" l) "custom"
  && truthy (opt_get "label" (opt_get "data" l)).

Definition tagged_model_snapshot (l : value) : bool :=
  str_eq (opt_get "customType" l) "model-snapshot".

Definition modelId_of (l : value) : value :=
  opt_get "modelId" (opt_get "data" l).

(** The text in which a sub-agent label is looked for: the [text] of the
    first element of the content of a message. *)
Definition task_text (l : value) : value :=
  opt_get "text" (opt_index0 (opt_get "content" (payload l))).

(** The text holds the words Your Task; for a list, one of its elements is
    exactly these words. *)
Definition mentions_task (text : value) : bool :=
  match text with
  | VStr s => includes "Your Task" s
  | VArr xs => existsb (fun x => str_eq x "Your Task") xs
  | _ => false
  end.

(** The active log of a session: the file that the path [<id>.jsonl] leads
    to, when it can be stat-ed. *)
Definition active_at (at_path : paths) (sessionId : string) (f : file)
  : Prop :=
  at_path (sessionId ++ ".jsonl")%string = Some f /\ stat f <> None.

(** An archived variant: a name that starts with [<id>.jsonl.deleted]. *)
Definition archived_variant (sessionId : string) (f : file) : bool :=
  startsWith (sessionId ++ ".jsonl.deleted") (name f).

(** A line of a well-formed log: an object or another non-null value, whose
    [id] is a string when it has one, whose token count and cost total are
    numbers when it has them, and whose task text is a string when it has
    one. *)
Definition well_formed_line (l : value) : Prop :=
  nullish l = false
  /\ (is_string (opt_get "id" l) = true \/ truthy (opt_get "id" l) = false)
  /\ number_or_absent (token_field l)
  /\ number_or_absent (cost_field l)
  /\ (is_string (task_text l) = true \/ nullish (task_text l) = true).

(** A file whose two dates are valid. *)
Definition valid_dates (f : file) : Prop :=
  forall st, stat f = Some st ->
    valid_time (mtime st) = true /\ valid_time (birthtime st) = true.

Definition well_formed_log (f : file) : Prop :=
  stat f <> None /\ valid_dates f /\ content f <> None
  /\ Forall well_formed_line (lines_of f).

(** The candidates that the loop does not skip: those whose modification
    time is not before the cutoff, among them the ones whose modification
    date is invalid. *)
Definition in_window (cutoff : Z) (f : file) : bool :=
  match stat f with
  | Some st => negb (time_lt (mtime st) cutoff)
  | None => false
  end.

(** A file modified at [today] or later. *)
Definition modified_since (today : Z) (f : file) : bool :=
  match stat f with
  | Some st => time_ge (mtime st) today
  | None => false
  end.

Definition summarizable (f : file) : bool :=
  match parseSessionFile f with
  | Ok _ => true
  | Throw _ => false
  end.

Fixpoint summaries (files : list file) : list summary :=
  match files with
  | [] => []
  | f :: rest =>
      match parseSessionFile f with
      | Ok s => s :: summaries rest
      | Throw _ => summaries rest
      end
  end.

(** The files the listing works on: the candidates by name that are
    inside the window that [qActive] asks for. *)
Definition included (q : string) (qArchived : value) (now : Z)
  (entries : list file) : list file :=
  filter (in_window (now - window_minutes q * 60 * 1000)%Z)
    (candidates (negb (str_eq qArchived "false")) entries).

(** The last character of a string. *)
Fixpoint last_char (s : string) : option ascii :=
  match s with
  | EmptyString => None
  | String c s' =>
      match s' with
      | EmptyString => Some c
      | String _ _ => last_char s'
      end
  end.

(** A canonical identifier: one or more characters among the lower-case
    hexadecimal digits and the dash. *)
Fixpoint all_id_chars (s : string) : bool :=
  match s with
  | EmptyString => true
  | String c s' => is_id_char c && all_id_chars s'
  end.

Definition canonical_id (id : string) : Prop :=
  id <> ""%string /\ all_id_chars id = true.

(** An event whose type is [session]. *)
Definition session_typed (l : value) : bool :=
  str_eq (opt_get "type" l) "session".

Fixpoint all_chars (p : ascii -> bool) (s : string) : bool :=
  match s with
  | EmptyString => true
  | String c s' => p c && all_chars p s'
  end.

Definition head_char (s : string) : option ascii :=
  match s with
  | EmptyString => None
  | String c _ => Some c
  end.

(** [piece] occurs in [s]. *)
Definition occurs_in (piece s : string) : Prop :=
  exists a b, s = (a ++ piece ++ b)%string.

(** ** [GET /api/stats] *)

(** The names that the statistics count:
    [f.includes('.jsonl') && !f.endsWith('.lock') && !f.endsWith('.json')]. *)
Definition is_stats_file (f : string) : bool :=
  includes ".jsonl" f && negb (endsWith ".lock" f) && negb (endsWith ".json" f).

Record fleet : Type := {
  totalSessions : nat;
  activeToday : nat;
  archivedCount : nat;
  activeSessions : Z;
  fleet_totalTokens : value;
  fleet_totalCost : value;
  timestamp : Z
}.

(** The five variables of the loop of the statistics. *)
Record tally : Type := {
  tally_totalTokens : value;
  tally_totalCost : value;
  tally_totalSessions : nat;
  tally_activeToday : nat;
  tally_archivedCount : nat
}.

Definition tally0 : tally :=
  {| tally_totalTokens := VNum 0; tally_totalCost := VNum 0;
     tally_totalSessions := 0; tally_activeToday := 0;
     tally_archivedCount := 0 |}.

(** The inner [try]: the totals of the file are added one after the other,
    and whatever is thrown on the way is dropped. *)
Definition add_session (tokens cost : value) (f : file) : value * value :=
  match parseSessionFile f with
  | Throw _ => (tokens, cost)
  | Ok session =>
      match js_add tokens (totalTokens session) with
      | Throw _ => (tokens, cost)
      | Ok tokens' =>
          match js_add cost (totalCost session) with
          | Throw _ => (tokens', cost)
          | Ok cost' => (tokens', cost')
          end
      end
  end.

(** The loop; [today] is the local midnight before the request. *)
Fixpoint tally_files (today : Z) (files : list file) (t : tally)
  : result tally :=
  match files with
  | [] => Ok t
  | f :: rest =>
      st <- statSync f ;;
      let isDeleted := includes ".deleted" (name f) in
      let totals := add_session (tally_totalTokens t) (tally_totalCost t) f in
      tally_files today rest
        {| tally_totalTokens := fst totals;
           tally_totalCost := snd totals;
           tally_totalSessions := S (tally_totalSessions t);
           tally_activeToday :=
             if time_ge (mtime st) today then S (tally_activeToday t)
             else tally_activeToday t;
           tally_archivedCount :=
             if isDeleted then S (tally_archivedCount t)
             else tally_archivedCount t |}
  end.

Definition stats_files (entries : list file) : list file :=
  filter (fun f => is_stats_file (name f)) entries.

(** The route; [now] is the time of the answer. *)
Definition get_stats (now today : Z) (d : directory) : response fleet :=
  match readdirSync d with
  | Throw _ => Error500
  | Ok entries =>
      match tally_files today (stats_files entries) tally0 with
      | Throw _ => Error500
      | Ok t =>
          Ok200 {| totalSessions := tally_totalSessions t;
                   activeToday := tally_activeToday t;
                   archivedCount := tally_archivedCount t;
                   activeSessions :=
                     (Z.of_nat (tally_totalSessions t)
                      - Z.of_nat (tally_archivedCount t))%Z;
                   fleet_totalTokens := tally_totalTokens t;
                   fleet_totalCost := tally_totalCost t;
                   timestamp := now |}
      end
  end.

(** Descending order of [lastUpdated]. *)
Definition descending (l : list summary) : Prop :=
  StronglySorted (fun a b => (lastUpdated b <= lastUpdated a)%Z) l.

(** A file whose name carries the archival marker. *)
Definition deleted_name (f : file) : bool := includes ".deleted" (name f).

(** ** The dashboard client

    Two computations of the table and of the bar chart of the client.
    Dates are milliseconds since the epoch, token counts are the numbers
    that the session type of the client declares. *)

(** [String(n)] for an integer. *)
Definition Z_toString (n : Z) : string := NilZero.string_of_int (Z.to_int n).

(** [getTimeAgo(dateStr)], called at the time [now]. *)
Definition getTimeAgo (date now : Z) : string :=
  let diffMs := (now - date)%Z in
  let diffMins := (diffMs / 60000)%Z in
  if (diffMins <? 1)%Z then "just now"
  else if (diffMins <? 60)%Z then (Z_toString diffMins ++ "m ago")%string
  else if (diffMins <? 1440)%Z
       then (Z_toString (diffMins / 60) ++ "h ago")%string
       else (Z_toString (diffMins / 1440) ++ "d ago")%string.

(** [Math.max(...sessions.map(s => s.totalTokens), 1)] *)
Definition maxTokens (tokens : list Q) : Q := fold_right Qmax 1%Q tokens.

(** [(session.totalTokens / maxTokens) * 100] *)
Definition widthPercent (t : Q) (tokens : list Q) : Q :=
  ((t / maxTokens tokens) * 100)%Q.

(** ** Reasoning about the exception monad *)

Lemma bind_Ok {A B : Type} (c : result A) (k : A -> result B) (b : B) :
  bind c k = Ok b -> exists a, c = Ok a /\ k a = Ok b.
Proof.
  destruct c as [a | e]; simpl; intro H.
  - exists a; split; [reflexivity | exact H].
  - discriminate H.
Qed.

Tactic Notation "unbind" ident(H) "as" ident(x) ident(Hx) :=
  apply bind_Ok in H; destruct H as (x & Hx & H).

Lemma get_Ok (k : string) (v w : value) :
  get k v = Ok w -> nullish v = false /\ w = opt_get k v.
Proof.
  unfold get. destruct (nullish v); intro H; [discriminate H |].
  inversion H; auto.
Qed.

Lemma get_not_nullish (k : string) (v : value) :
  nullish v = false -> get k v = Ok (opt_get k v).
Proof. unfold get. intros ->. reflexivity. Qed.

Lemma truthy_not_nullish (v : value) : truthy v = true -> nullish v = false.
Proof. destruct v; simpl; intro H; congruence. Qed.

Lemma opt_get_falsy (k : string) (v : value) :
  truthy v = false -> opt_get k v = VUndef.
Proof. destruct v; simpl; intro H; congruence. Qed.

(** ** The filter of the accumulation pass *)

Lemma is_message_Ok (l : value) (b : bool) :
  is_message l = Ok b -> nullish l = false /\ b = truthy (payload l).
Proof.
  unfold is_message, payload. intro H. unbind H as t Ht.
  apply get_Ok in Ht. destruct Ht as [Hl ->]. split; [exact Hl |].
  destruct (str_eq (opt_get "type" l) "message").
  - unbind H as m Hm. apply get_Ok in Hm. destruct Hm as [_ ->]. congruence.
  - simpl. congruence.
Qed.

Lemma filter_m_is_message (lines ms : list value) :
  filter_m is_message lines = Ok ms ->
  ms = filter (fun l => truthy (payload l)) lines
  /\ Forall (fun l => nullish l = false) lines.
Proof.
  revert ms. induction lines as [| l lines IH]; simpl; intros ms H.
  - inversion H. auto.
  - unbind H as b Hb. unbind H as r Hr. inversion H; subst ms.
    apply is_message_Ok in Hb. destruct Hb as [Hl ->].
    destruct (IH _ Hr) as [-> HF]. split; [| constructor; assumption].
    destruct (truthy (payload l)); reflexivity.
Qed.

Lemma payload_truthy (l : value) :
  truthy (payload l) = true ->
  nullish l = false /\ payload l = opt_get "message" l
  /\ is_message_event l = true.
Proof.
  unfold payload, is_message_event.
  destruct (str_eq (opt_get "type" l) "message") eqn:E; simpl; intro H.
  - repeat split; auto.
    + destruct l; simpl in *; congruence.
    + rewrite (truthy_not_nullish _ H). reflexivity.
  - discriminate H.
Qed.

(** ** One turn of the accumulation loop *)

Lemma step_inv (a a' : acc) (l : value) :
  step a l = Ok a' ->
  truthy (payload l) = true ->
  let msg := payload l in
  acc_model a' =
    (if truthy (opt_get "model" msg) then opt_get "model" msg else acc_model a)
  /\ acc_lastStatus a' =
    (if truthy (opt_get "stopReason" msg)
     then stop_status (opt_get "stopReason" msg) else acc_lastStatus a)
  /\ (if truthy (usage_of l)
      then js_add (acc_totalTokens a)
             (if truthy (token_field l) then token_field l else VNum 0)
           = Ok (acc_totalTokens a')
           /\ (if truthy (cost_field l)
               then js_add (acc_totalCost a) (cost_field l)
               else Ok (acc_totalCost a)) = Ok (acc_totalCost a')
      else acc_totalTokens a' = acc_totalTokens a
           /\ acc_totalCost a' = acc_totalCost a).
Proof.
  intros H Hp. destruct (payload_truthy l Hp) as (Hl & Hm & _).
  unfold step in H. rewrite (get_not_nullish _ _ Hl) in H. simpl in H.
  unfold token_field, cost_field, usage_of. rewrite Hm.
  unbind H as tc Htc. inversion H; subst a'; clear H. simpl.
  split; [reflexivity | split; [reflexivity |]].
  destruct (truthy (opt_get "usage" (opt_get "message" l))) eqn:Hu.
  - unbind Htc as tt Htt. unbind Htc as tokens Htokens.
    unbind Htc as c Hc. unbind Htc as cost Hcost. inversion Htc; subst tc.
    apply get_Ok in Htt, Hc. destruct Htt as [_ ->]. destruct Hc as [_ ->].
    simpl. split; assumption.
  - inversion Htc. simpl. split; reflexivity.
Qed.

Lemma fold_m_app {A : Type} (f : A -> value -> result A) (l1 l2 : list value)
  (a b : A) :
  fold_m f (l1 ++ l2) a = Ok b ->
  exists m, fold_m f l1 a = Ok m /\ fold_m f l2 m = Ok b.
Proof.
  revert a. induction l1 as [| x l1 IH]; simpl; intros a H.
  - exists a. auto.
  - unbind H as a1 Ha1. destruct (IH _ H) as (m & H1 & H2).
    exists m. rewrite Ha1. simpl. auto.
Qed.

(** ** Last write wins: the model and the status left by the loop *)

Lemma fold_step_last (ms : list value) :
  Forall (fun l => truthy (payload l) = true) ms ->
  forall a a', fold_m step ms a = Ok a' ->
  acc_lastStatus a' =
    match last_observed "stopReason" ms with
    | Some sr => stop_status sr
    | None => acc_lastStatus a
    end
  /\ acc_model a' =
    match last_observed "model" ms with
    | Some m => m
    | None => acc_model a
    end.
Proof.
  induction 1 as [| l ms Hl _ IH]; simpl; intros a a' H.
  - inversion H. auto.
  - unbind H as a1 Ha1. destruct (IH _ _ H) as [Hs Hm].
    destruct (step_inv _ _ _ Ha1 Hl) as (Hm1 & Hs1 & _).
    rewrite Hs, Hm. split.
    + destruct (last_observed "stopReason" ms); [reflexivity |].
      rewrite Hs1.
      destruct (truthy (opt_get "stopReason" (payload l))); reflexivity.
    + destruct (last_observed "model" ms); [reflexivity |].
      rewrite Hm1.
      destruct (truthy (opt_get "model" (payload l))); reflexivity.
Qed.

Lemma last_observed_filter (field : string) (lines : list value) :
  last_observed field (filter (fun l => truthy (payload l)) lines)
  = last_observed field lines.
Proof.
  induction lines as [| l lines IH]; simpl; [reflexivity |].
  destruct (truthy (payload l)) eqn:E; simpl; rewrite IH; [reflexivity |].
  rewrite (opt_get_falsy _ _ E). simpl.
  destruct (last_observed field lines); reflexivity.
Qed.

Lemma filter_Forall_true {A : Type} (p : A -> bool) (l : list A) :
  Forall (fun x => p x = true) (filter p l).
Proof.
  apply Forall_forall. intros x Hx. apply filter_In in Hx. tauto.
Qed.

Lemma accumulate_last (lines ms : list value) (a : acc) :
  filter_m is_message lines = Ok ms ->
  accumulate ms = Ok a ->
  acc_lastStatus a = last_stop_status lines
  /\ acc_model a = last_message_model lines.
Proof.
  intros Hf Ha. apply filter_m_is_message in Hf. destruct Hf as [-> _].
  unfold accumulate in Ha.
  destruct (fold_step_last _ (filter_Forall_true _ _) _ _ Ha) as [Hs Hm].
  rewrite !last_observed_filter in *.
  unfold last_stop_status, last_message_model. rewrite Hs, Hm.
  split; reflexivity.
Qed.

Lemma last_stop_status_not_archived (lines : list value) :
  last_stop_status lines <> archived.
Proof.
  unfold last_stop_status, stop_status.
  destruct (last_observed "stopReason" lines) as [sr |]; [| discriminate].
  destruct (str_eq sr "toolUse"); discriminate.
Qed.

(** ** What a successful call of [parseSessionFile] went through *)

Lemma parseSessionFile_inv (f : file) (s : summary) :
  parseSessionFile f = Ok s ->
  exists st ls ms a,
    stat f = Some st /\ content f = Some ls
    /\ session_key (decoded ls) (extractSessionId (name f)) = Ok (sessionKey s)
    /\ filter_m is_message (decoded ls) = Ok ms
    /\ accumulate ms = Ok a
    /\ resolve_label (decoded ls) (sessionKey s) = Ok (label s)
    /\ resolve_model (decoded ls) (acc_model a) = Ok (model s)
    /\ resolve_status (isDeleted s) (acc_totalTokens a) (acc_lastStatus a)
       = Ok (status s)
    /\ totalTokens s = acc_totalTokens a /\ totalCost s = acc_totalCost a
    /\ isDeleted s = includes ".deleted" (name f)
    /\ messageCount s = List.length ms
    /\ lastUpdated s = mtime st.
Proof.
  unfold parseSessionFile, statSync, readLines. intro H.
  destruct (stat f) as [st |]; simpl in H; [| discriminate H].
  destruct (content f) as [ls |]; simpl in H; [| discriminate H].
  unbind H as sk Hsk. unbind H as ms Hms. unbind H as a Ha.
  unbind H as lbl Hlbl. unbind H as md Hmd. unbind H as stt Hstt.
  unbind H as lu Hlu. unbind H as ca Hca.
  unfold toISOString in Hlu.
  destruct (valid_time (mtime st)); [| discriminate Hlu].
  injection Hlu as <-.
  inversion H; subst s; clear H. simpl.
  exists st, ls, ms, a. repeat split; assumption.
Qed.

(** A summary is only returned for a file whose two dates are valid. *)
Lemma parseSessionFile_dates (f : file) (s : summary) :
  parseSessionFile f = Ok s ->
  exists st, stat f = Some st
    /\ valid_time (mtime st) = true /\ valid_time (birthtime st) = true
    /\ lastUpdated s = mtime st /\ createdAt s = birthtime st.
Proof.
  unfold parseSessionFile, statSync, readLines. intro H.
  destruct (stat f) as [st |]; simpl in H; [| discriminate H].
  destruct (content f) as [ls |]; simpl in H; [| discriminate H].
  unbind H as sk Hsk. unbind H as ms Hms. unbind H as a Ha.
  unbind H as lbl Hlbl. unbind H as md Hmd. unbind H as stt Hstt.
  unbind H as lu Hlu. unbind H as ca Hca.
  unfold toISOString in Hlu, Hca.
  destruct (valid_time (mtime st)) eqn:Vm; [| discriminate Hlu].
  destruct (valid_time (birthtime st)) eqn:Vb; [| discriminate Hca].
  injection Hlu as <-. injection Hca as <-.
  inversion H; subst s; clear H. simpl.
  exists st. repeat split; solve [reflexivity | assumption].
Qed.

(** ** Totals of a log without usage data *)

Lemma fold_step_no_usage (ms : list value) :
  Forall (fun l => truthy (payload l) = true) ms ->
  (forall l, In l ms -> truthy (usage_of l) = false) ->
  forall a a', fold_m step ms a = Ok a' ->
  acc_totalTokens a' = acc_totalTokens a /\ acc_totalCost a' = acc_totalCost a.
Proof.
  induction 1 as [| l ms Hl _ IH]; simpl; intros Hu a a' H.
  - inversion H. auto.
  - unbind H as a1 Ha1.
    destruct (IH (fun x Hx => Hu x (or_intror Hx)) _ _ H) as [Ht Hc].
    destruct (step_inv _ _ _ Ha1 Hl) as (_ & _ & Hstep).
    rewrite (Hu l (or_introl eq_refl)) in Hstep.
    destruct Hstep as [Ht1 Hc1]. split; congruence.
Qed.

Lemma no_usage_totals (lines ms : list value) (a : acc) :
  has_usage_message lines = false ->
  filter_m is_message lines = Ok ms ->
  accumulate ms = Ok a ->
  acc_totalTokens a = VNum 0 /\ acc_totalCost a = VNum 0.
Proof.
  intros Hu Hf Ha. apply filter_m_is_message in Hf. destruct Hf as [-> _].
  apply (fold_step_no_usage _ (filter_Forall_true _ _)) in Ha; [exact Ha |].
  intros l Hl. apply filter_In in Hl. destruct Hl as [Hl _].
  unfold has_usage_message in Hu.
  destruct (truthy (usage_of l)) eqn:E; [| reflexivity].
  rewrite <- Hu. symmetry. apply existsb_exists. exists l. auto.
Qed.

Lemma lines_of_content (f : file) (ls : list line) :
  content f = Some ls -> lines_of f = decoded ls.
Proof. unfold lines_of. intros ->. reflexivity. Qed.

(** ** Status *)

(** C4.  The status of a summary is [archived] if and only if the name of
    the log contains the archival marker [.deleted], whatever the log
    holds. *)
Theorem status_archived_iff_flagged (f : file) (s : summary) :
  parseSessionFile f = Ok s ->
  (status s = archived <-> includes ".deleted" (name f) = true)
  /\ isDeleted s = includes ".deleted" (name f).
Proof.
  intro H. apply parseSessionFile_inv in H.
  destruct H as (st & ls & ms & a & _ & _ & _ & Hms & Ha & _ & _ & Hst
                 & _ & _ & Hdel & _).
  split; [| exact Hdel].
  destruct (accumulate_last _ _ _ Hms Ha) as [Hlast _].
  rewrite <- Hdel. unfold resolve_status in Hst.
  unbind Hst as positive Hpos. injection Hst as Hs. rewrite <- Hs.
  destruct (isDeleted s); simpl.
  - rewrite andb_false_r. split; reflexivity.
  - rewrite andb_true_r. split; [| discriminate].
    destruct positive; [| discriminate].
    rewrite Hlast. intro Habs.
    exfalso. exact (last_stop_status_not_archived _ Habs).
Qed.

(** C1, as amended.  For a log that is not archived, the status is [idle]
    whenever the accumulated token total is not greater than zero, which
    covers every log without a message event that carries usage; when the
    total is greater than zero, the status is the one derived from the last
    observed stop reason: [running] for [toolUse], [completed] for any
    other, [idle] if no stop reason was observed. *)
Theorem status_of_active_log (f : file) (s : summary) :
  parseSessionFile f = Ok s ->
  includes ".deleted" (name f) = false ->
  (exists positive, gt_zero (totalTokens s) = Ok positive
     /\ status s = if positive then last_stop_status (lines_of f) else idle)
  /\ (forall t, totalTokens s = VNum t ->
      status s = if Qlt_bool 0 t then last_stop_status (lines_of f) else idle)
  /\ (has_usage_message (lines_of f) = false -> status s = idle).
Proof.
  intros H Hn. apply parseSessionFile_inv in H.
  destruct H as (st & ls & ms & a & _ & Hls & _ & Hms & Ha & _ & _ & Hst
                 & Htok & _ & Hdel & _).
  rewrite (lines_of_content _ _ Hls).
  destruct (accumulate_last _ _ _ Hms Ha) as [Hlast _].
  rewrite Hdel, Hn in Hst. unfold resolve_status in Hst.
  unbind Hst as positive Hpos. injection Hst as Hs.
  rewrite andb_true_r, Hlast in Hs.
  assert (Hstatus : status s
            = if positive then last_stop_status (decoded ls) else idle)
    by (destruct positive; simpl in Hs; symmetry; exact Hs).
  split; [| split].
  - exists positive. rewrite Htok. split; [exact Hpos | exact Hstatus].
  - intros t Ht. rewrite Htok in Ht. rewrite Ht in Hpos. simpl in Hpos.
    inversion Hpos; subst positive. exact Hstatus.
  - intro Hu. destruct (no_usage_totals _ _ _ Hu Hms Ha) as [Hz _].
    rewrite Hz in Hpos. simpl in Hpos. inversion Hpos; subst positive.
    exact Hstatus.
Qed.

(** ** Totals of a log whose usage fields are numbers *)

Lemma truthy_VNum_false (q : Q) : truthy (VNum q) = false -> (q == 0)%Q.
Proof.
  simpl. intro H. apply Qeq_bool_iff.
  destruct (Qeq_bool q 0); [reflexivity | discriminate H].
Qed.

Lemma step_numeric (a a' : acc) (l : value) (t c : Q) :
  step a l = Ok a' ->
  truthy (payload l) = true ->
  number_or_absent (token_field l) ->
  number_or_absent (cost_field l) ->
  acc_totalTokens a = VNum t ->
  acc_totalCost a = VNum c ->
  exists t' c',
    acc_totalTokens a' = VNum t' /\ acc_totalCost a' = VNum c'
    /\ (t' == t + tokens_of l)%Q /\ (c' == c + cost_of l)%Q.
Proof.
  intros H Hl Ht Hc Eat Eac.
  destruct (step_inv _ _ _ H Hl) as (_ & _ & Hstep).
  unfold tokens_of, cost_of. rewrite Eat, Eac in Hstep.
  destruct (truthy (usage_of l)) eqn:Hu.
  - destruct Hstep as [Htok Hcost].
    assert (Ht' : exists t', acc_totalTokens a' = VNum t'
                    /\ (t' == t + number_or_zero (token_field l))%Q).
    { destruct (token_field l) as [| | b | q | | x | x | x];
        try contradiction; simpl in Htok.
      - injection Htok as <-. eexists; split; reflexivity.
      - injection Htok as <-. eexists; split; reflexivity.
      - destruct (negb (Qeq_bool q 0)) eqn:Eq;
          simpl in Htok; injection Htok as <-; eexists;
          (split; [reflexivity |]); simpl; [reflexivity |].
        rewrite (truthy_VNum_false q Eq). reflexivity. }
    assert (Hc' : exists c', acc_totalCost a' = VNum c'
                    /\ (c' == c + number_or_zero (cost_field l))%Q).
    { destruct (cost_field l) as [| | b | q | | x | x | x];
        try contradiction; simpl in Hcost.
      - injection Hcost as <-. eexists; split; [reflexivity |].
        simpl. rewrite Qplus_0_r. reflexivity.
      - injection Hcost as <-. eexists; split; [reflexivity |].
        simpl. rewrite Qplus_0_r. reflexivity.
      - destruct (negb (Qeq_bool q 0)) eqn:Eq;
          simpl in Hcost; injection Hcost as <-; eexists;
          (split; [reflexivity |]); simpl; [reflexivity |].
        rewrite (truthy_VNum_false q Eq), Qplus_0_r. reflexivity. }
    destruct Ht' as (t' & ? & ?). destruct Hc' as (c' & ? & ?).
    exists t', c'. auto.
  - destruct Hstep as [Htok Hcost]. exists t, c.
    unfold token_field, cost_field.
    rewrite (opt_get_falsy "totalTokens" _ Hu), (opt_get_falsy "cost" _ Hu).
    simpl. rewrite !Qplus_0_r. rewrite Htok, Hcost.
    repeat split; reflexivity.
Qed.

Lemma fold_step_numeric (ms : list value) :
  Forall (fun l => truthy (payload l) = true) ms ->
  (forall l, In l ms ->
     number_or_absent (token_field l) /\ number_or_absent (cost_field l)) ->
  forall a a' t c,
    fold_m step ms a = Ok a' ->
    acc_totalTokens a = VNum t ->
    acc_totalCost a = VNum c ->
    exists t' c',
      acc_totalTokens a' = VNum t' /\ acc_totalCost a' = VNum c'
      /\ (t' == t + sum_tokens ms)%Q /\ (c' == c + sum_cost ms)%Q.
Proof.
  unfold sum_tokens, sum_cost.
  induction 1 as [| l ms Hl _ IH]; simpl; intros Hty a a' t c H Et Ec.
  - injection H as <-. exists t, c. rewrite !Qplus_0_r.
    repeat split; auto; reflexivity.
  - unbind H as a1 Ha1.
    destruct (Hty l (or_introl eq_refl)) as [Htl Hcl].
    destruct (step_numeric _ _ _ _ _ Ha1 Hl Htl Hcl Et Ec)
      as (t1 & c1 & Et1 & Ec1 & Ht1 & Hc1).
    destruct (IH (fun x Hx => Hty x (or_intror Hx)) _ _ _ _ H Et1 Ec1)
      as (t' & c' & Et' & Ec' & Ht' & Hc').
    exists t', c'. repeat split; auto.
    + rewrite Ht', Ht1. apply Qplus_assoc || (symmetry; apply Qplus_assoc).
    + rewrite Hc', Hc1. apply Qplus_assoc || (symmetry; apply Qplus_assoc).
Qed.

Lemma well_typed_messagelines (lines : list value) :
  well_typed_usage lines ->
  forall l, In l (messagelines lines) ->
    number_or_absent (token_field l) /\ number_or_absent (cost_field l).
Proof.
  intros H l Hl. apply filter_In in Hl. apply H. tauto.
Qed.

Lemma nonnegative_or_absent_typed (v : value) :
  nonnegative_or_absent v ->
  number_or_absent v /\ (0 <= number_or_zero v)%Q.
Proof.
  destruct v; simpl; intro H; try contradiction; split;
    solve [exact I | exact H | apply Qle_refl].
Qed.

Lemma sums_nonnegative (ms : list value) :
  nonnegative_usage ms ->
  (0 <= sum_tokens ms)%Q /\ (0 <= sum_cost ms)%Q.
Proof.
  unfold sum_tokens, sum_cost.
  induction ms as [| l ms IH]; simpl; intro H.
  - split; apply Qle_refl.
  - destruct (IH (fun x Hx => H x (or_intror Hx))) as [IHt IHc].
    destruct (H l (or_introl eq_refl)) as [Ht Hc].
    apply nonnegative_or_absent_typed in Ht, Hc.
    split.
    + change 0%Q with (0 + 0)%Q. apply Qplus_le_compat; [apply Ht | exact IHt].
    + change 0%Q with (0 + 0)%Q. apply Qplus_le_compat; [apply Hc | exact IHc].
Qed.

Lemma nonnegative_usage_sub (lines ms : list value) :
  nonnegative_usage lines -> incl ms lines ->
  nonnegative_usage ms
  /\ (forall l, In l ms ->
        number_or_absent (token_field l) /\ number_or_absent (cost_field l)).
Proof.
  intros H Hi. split; intros l Hl; specialize (H l (Hi l Hl)).
  - exact H.
  - destruct H as [Ht Hc].
    apply nonnegative_or_absent_typed in Ht, Hc. tauto.
Qed.

(** ** Totals *)

(** C8, as amended.  When every token count and every cost total of the log
    is a number not below zero or is absent, [totalTokens] and [totalCost]
    are not negative, and along the accumulation pass the running totals
    after any number of message lines are at most the running totals after
    any further lines. *)
Theorem totals_never_decrease (f : file) (s : summary) :
  parseSessionFile f = Ok s ->
  nonnegative_usage (lines_of f) ->
  (exists t c,
     totalTokens s = VNum t /\ totalCost s = VNum c
     /\ (0 <= t)%Q /\ (0 <= c)%Q)
  /\ forall p1 p2 rest,
       messagelines (lines_of f) = p1 ++ p2 ++ rest ->
       exists a1 a2 t1 c1 t2 c2,
         accumulate p1 = Ok a1 /\ accumulate (p1 ++ p2) = Ok a2
         /\ acc_totalTokens a1 = VNum t1 /\ acc_totalCost a1 = VNum c1
         /\ acc_totalTokens a2 = VNum t2 /\ acc_totalCost a2 = VNum c2
         /\ (t1 <= t2)%Q /\ (c1 <= c2)%Q.
Proof.
  intros H Hnn. apply parseSessionFile_inv in H.
  destruct H as (st & ls & ms & a & _ & Hls & _ & Hms & Ha & _ & _ & _
                 & Htok & Hcost & _).
  rewrite (lines_of_content _ _ Hls) in *.
  apply filter_m_is_message in Hms. destruct Hms as [-> _].
  fold (messagelines (decoded ls)) in Ha.
  assert (Hin : incl (messagelines (decoded ls)) (decoded ls))
    by (intros x Hx; apply filter_In in Hx; tauto).
  assert (HF : Forall (fun l => truthy (payload l) = true)
                 (messagelines (decoded ls)))
    by apply filter_Forall_true.
  split.
  - destruct (nonnegative_usage_sub _ _ Hnn Hin) as [Hnn' Hty].
    destruct (fold_step_numeric _ HF Hty _ _ 0%Q 0%Q Ha eq_refl eq_refl)
      as (t & c & Et & Ec & Ht & Hc).
    destruct (sums_nonnegative _ Hnn') as [St Sc].
    exists t, c. rewrite Htok, Hcost. repeat split; auto.
    + rewrite Ht, Qplus_0_l. exact St.
    + rewrite Hc, Qplus_0_l. exact Sc.
  - intros p1 p2 rest Hsplit. rewrite Hsplit in Ha, Hin, HF.
    unfold accumulate in *. rewrite app_assoc in Ha.
    apply fold_m_app in Ha. destruct Ha as (a2 & Ha2 & _).
    pose proof Ha2 as Ha12.
    apply fold_m_app in Ha12. destruct Ha12 as (a1 & Ha1 & Ha12).
    apply Forall_app in HF. destruct HF as [HF1 HF23].
    apply Forall_app in HF23. destruct HF23 as [HF2 _].
    destruct (nonnegative_usage_sub _ p1 Hnn) as [_ Hty1].
    { intros x Hx. apply Hin, in_or_app. auto. }
    destruct (nonnegative_usage_sub _ p2 Hnn) as [Hnn2 Hty2].
    { intros x Hx. apply Hin, in_or_app. right. apply in_or_app. auto. }
    destruct (fold_step_numeric _ HF1 Hty1 _ _ 0%Q 0%Q Ha1 eq_refl eq_refl)
      as (t1 & c1 & Et1 & Ec1 & _ & _).
    destruct (fold_step_numeric _ HF2 Hty2 _ _ t1 c1 Ha12 Et1 Ec1)
      as (t2 & c2 & Et2 & Ec2 & Ht2 & Hc2).
    destruct (sums_nonnegative _ Hnn2) as [St Sc].
    exists a1, a2, t1, c1, t2, c2. repeat split; auto.
    + rewrite Ht2. rewrite <- (Qplus_0_r t1) at 1.
      apply Qplus_le_r. exact St.
    + rewrite Hc2. rewrite <- (Qplus_0_r c1) at 1.
      apply Qplus_le_r. exact Sc.
Qed.

(** ** First match of [find] *)

Lemma find_m_first (p : value -> result bool) (q : value -> bool) :
  (forall l b, p l = Ok b -> b = q l) ->
  forall pre e post v,
    find_m p (pre ++ e :: post) = Ok v ->
    (forall x, In x pre -> q x = false) ->
    q e = true ->
    v = e.
Proof.
  intros Hpq pre e post v. induction pre as [| x pre IH]; simpl; intros H Hpre He.
  - unbind H as b Hb. apply Hpq in Hb. rewrite He in Hb. subst b.
    congruence.
  - unbind H as b Hb. apply Hpq in Hb.
    rewrite (Hpre x (or_introl eq_refl)) in Hb. subst b.
    apply IH; auto.
Qed.

Lemma find_m_none (p : value -> result bool) (q : value -> bool) :
  (forall l b, p l = Ok b -> b = q l) ->
  forall lines v,
    find_m p lines = Ok v ->
    (forall x, In x lines -> q x = false) ->
    v = VUndef.
Proof.
  intros Hpq lines v. induction lines as [| x lines IH]; simpl; intros H Hq.
  - congruence.
  - unbind H as b Hb. apply Hpq in Hb.
    rewrite (Hq x (or_introl eq_refl)) in Hb. subst b.
    apply IH; auto.
Qed.

Lemma is_model_snapshot_Ok (l : value) (b : bool) :
  is_model_snapshot l = Ok b -> b = tagged_model_snapshot l.
Proof.
  unfold is_model_snapshot, tagged_model_snapshot. intro H.
  unbind H as c Hc. apply get_Ok in Hc. destruct Hc as [_ ->]. congruence.
Qed.

Lemma is_label_event_Ok (l : value) (b : bool) :
  is_label_event l = Ok b -> b = label_bearing l.
Proof.
  unfold is_label_event, label_bearing. intro H.
  unbind H as t Ht. apply get_Ok in Ht. destruct Ht as [_ ->].
  destruct (str_eq (opt_get "type" l) "custom"); simpl.
  - unbind H as d Hd. apply get_Ok in Hd. destruct Hd as [_ ->]. congruence.
  - congruence.
Qed.

Lemma is_task_line_Ok (l : value) (b : bool) :
  is_task_line l = Ok b -> b = mentions_task (task_text l).
Proof.
  unfold is_task_line, task_text, payload. intro H.
  unbind H as t Ht. apply get_Ok in Ht. destruct Ht as [_ ->].
  destruct (str_eq (opt_get "type" l) "message"); simpl.
  - unbind H as m Hm. apply get_Ok in Hm. destruct Hm as [_ ->].
    unbind H as r Hr. injection H as <-.
    destruct (opt_get "text" (opt_index0 (opt_get "content" (opt_get "message" l))));
      simpl in Hr; try discriminate Hr; injection Hr as <-; reflexivity.
  - congruence.
Qed.

(** ** The model override *)

Lemma resolve_model_first (lines pre post : list value) (e scanned m : value) :
  resolve_model lines scanned = Ok m ->
  lines = pre ++ e :: post ->
  (forall x, In x pre -> tagged_model_snapshot x = false) ->
  tagged_model_snapshot e = true ->
  m = if truthy (modelId_of e) then modelId_of e else scanned.
Proof.
  unfold resolve_model. intros H -> Hpre He.
  unbind H as modelLine Hfind.
  apply (find_m_first _ _ is_model_snapshot_Ok) in Hfind; auto.
  subst modelLine. injection H as <-. reflexivity.
Qed.

(** C5, as amended.  When the first event of the log whose secondary type
    tag is [model-snapshot] carries a non-empty [data.modelId], the model of
    the summary is that [modelId], whatever models the message events name
    and wherever the event stands among them. *)
Theorem model_snapshot_overrides (f : file) (s : summary)
  (pre post : list value) (e : value) :
  parseSessionFile f = Ok s ->
  lines_of f = pre ++ e :: post ->
  (forall x, In x pre -> tagged_model_snapshot x = false) ->
  tagged_model_snapshot e = true ->
  truthy (modelId_of e) = true ->
  model s = modelId_of e.
Proof.
  intros H Hlines Hpre He Hid. apply parseSessionFile_inv in H.
  destruct H as (st & ls & ms & a & _ & Hls & _ & _ & _ & _ & Hmodel & _).
  rewrite (lines_of_content _ _ Hls) in Hlines.
  rewrite (resolve_model_first _ _ _ _ _ _ Hmodel Hlines Hpre He), Hid.
  reflexivity.
Qed.

(** C10.  The model override looks at the first event whose secondary type
    tag is [model-snapshot], whatever its primary type: the model of the
    summary is the [data.modelId] of that event when it has one, and
    otherwise the model that the message events left, even when a later
    [model-snapshot] event carries a [modelId]. *)
Theorem model_snapshot_first_only (f : file) (s : summary)
  (pre post : list value) (e : value) :
  parseSessionFile f = Ok s ->
  lines_of f = pre ++ e :: post ->
  (forall x, In x pre -> tagged_model_snapshot x = false) ->
  tagged_model_snapshot e = true ->
  model s = if truthy (modelId_of e) then modelId_of e
            else last_message_model (lines_of f).
Proof.
  intros H Hlines Hpre He. apply parseSessionFile_inv in H.
  destruct H as (st & ls & ms & a & _ & Hls & _ & Hms & Ha & _ & Hmodel & _).
  rewrite (lines_of_content _ _ Hls) in *.
  destruct (accumulate_last _ _ _ Hms Ha) as [_ Hscan].
  rewrite (resolve_model_first _ _ _ _ _ _ Hmodel Hlines Hpre He), Hscan.
  reflexivity.
Qed.

(** ** The label *)

Lemma task_label_none (lines : list value) (lbl : value) :
  task_label lines = Ok lbl ->
  (forall x, In x lines -> mentions_task (task_text x) = false) ->
  lbl = VStr "Sub-agent".
Proof.
  unfold task_label. intros H Hno. unbind H as taskLine Hfind.
  apply (find_m_none _ _ is_task_line_Ok) in Hfind; auto.
  subst taskLine. simpl in H. congruence.
Qed.

Lemma task_text_payload (e : value) :
  mentions_task (task_text e) = true ->
  truthy e = true /\ payload e = opt_get "message" e.
Proof.
  unfold task_text, payload.
  destruct (str_eq (opt_get "type" e) "message") eqn:E; simpl.
  - intros _. split; [| reflexivity]. destruct e; simpl in *; congruence.
  - discriminate.
Qed.

Lemma task_label_first (lines pre post : list value) (e lbl : value)
  (txt : string) :
  task_label lines = Ok lbl ->
  lines = pre ++ e :: post ->
  (forall x, In x pre -> mentions_task (task_text x) = false) ->
  task_text e = VStr txt ->
  includes "Your Task" txt = true ->
  lbl = match match_label txt with
        | Some cap => VStr (trim cap)
        | None => VStr "Sub-agent"
        end.
Proof.
  unfold task_label. intros H -> Hpre Htxt Hinc.
  assert (He : mentions_task (task_text e) = true)
    by (rewrite Htxt; exact Hinc).
  unbind H as taskLine Hfind.
  apply (find_m_first _ _ is_task_line_Ok) in Hfind; auto.
  subst taskLine. destruct (task_text_payload _ He) as [Ht Hp].
  rewrite Ht in H.
  unbind H as m Hm. unbind H as c Hc. unbind H as x Hx. unbind H as text Htext.
  unbind H as taskMatch Hmatch. injection H as <-.
  apply get_Ok in Hm, Hc, Htext. destruct Hm as [_ ->].
  destruct Hc as [_ ->]. destruct Htext as [_ ->].
  unfold index0 in Hx.
  destruct (nullish (opt_get "content" (opt_get "message" e)));
    [discriminate Hx | injection Hx as <-].
  unfold task_text in Htxt. rewrite Hp in Htxt. rewrite Htxt in Hmatch.
  simpl in Hmatch. injection Hmatch as <-. reflexivity.
Qed.

(** C6.  The label of a summary follows a fixed priority.  The first custom
    event with a non-empty [data.label] gives the label, whatever the
    session key is.  Without such an event, a session whose key contains
    [subagent] takes the label extracted from the first message whose text
    mentions the task, and [Sub-agent] when there is no such message or the
    pattern finds nothing in it; any other session is labelled [Main]. *)
Theorem label_priority (f : file) (s : summary) :
  parseSessionFile f = Ok s ->
  (forall pre e post,
     lines_of f = pre ++ e :: post ->
     (forall x, In x pre -> label_bearing x = false) ->
     label_bearing e = true ->
     label s = opt_get "label" (opt_get "data" e))
  /\ ((forall x, In x (lines_of f) -> label_bearing x = false) ->
      (includes "subagent" (sessionKey s) = false -> label s = VStr "Main")
      /\ (includes "subagent" (sessionKey s) = true ->
          ((forall x, In x (lines_of f) ->
              mentions_task (task_text x) = false) ->
           label s = VStr "Sub-agent")
          /\ (forall pre e post txt,
                lines_of f = pre ++ e :: post ->
                (forall x, In x pre -> mentions_task (task_text x) = false) ->
                task_text e = VStr txt ->
                includes "Your Task" txt = true ->
                label s = match match_label txt with
                          | Some cap => VStr (trim cap)
                          | None => VStr "Sub-agent"
                          end))).
Proof.
  intro H. apply parseSessionFile_inv in H.
  destruct H as (st & ls & ms & a & _ & Hls & _ & _ & _ & Hlabel & _).
  rewrite (lines_of_content _ _ Hls).
  unfold resolve_label in Hlabel. unbind Hlabel as spawnLine Hfind.
  split.
  - intros pre e post Hlines Hpre He. rewrite Hlines in Hfind.
    apply (find_m_first _ _ is_label_event_Ok) in Hfind; auto.
    subst spawnLine. unfold label_bearing in He.
    apply andb_prop in He. destruct He as [_ He]. rewrite He in Hlabel.
    congruence.
  - intro Hno.
    apply (find_m_none _ _ is_label_event_Ok) in Hfind; auto.
    subst spawnLine. simpl in Hlabel. split.
    + intro Hkey. rewrite Hkey in Hlabel. congruence.
    + intro Hkey. rewrite Hkey in Hlabel. split.
      * intro Hnt. exact (task_label_none _ _ Hlabel Hnt).
      * intros pre e post txt Hlines Hpre Htxt Hinc.
        exact (task_label_first _ _ _ _ _ _ Hlabel Hlines Hpre Htxt Hinc).
Qed.

(** ** [GET /api/sessions/:sessionId] *)

Lemma find_first {A : Type} (p : A -> bool) (pre post : list A) (v : A) :
  (forall x, In x pre -> p x = false) -> p v = true ->
  find p (pre ++ v :: post) = Some v.
Proof.
  intros Hpre Hv. induction pre as [| x pre IH]; simpl.
  - rewrite Hv. reflexivity.
  - rewrite (Hpre x (or_introl eq_refl)). apply IH.
    intros y Hy. apply Hpre. right. exact Hy.
Qed.

Lemma find_all_false {A : Type} (p : A -> bool) (l : list A) :
  (forall x, In x l -> p x = false) -> find p l = None.
Proof.
  intro H. destruct (find p l) as [x |] eqn:E; [| reflexivity].
  apply find_some in E. destruct E as [Hin Hp].
  rewrite (H x Hin) in Hp. discriminate Hp.
Qed.

Lemma find_by_name (entries : list file) (f : file) :
  NoDup (map name entries) -> In f entries ->
  find (fun g => String.eqb (name g) (name f)) entries = Some f.
Proof.
  induction entries as [| g entries IH]; simpl; intros Hnd Hin; [tauto |].
  inversion Hnd as [| ? ? Hnotin Hnd']; subst.
  destruct Hin as [-> | Hin].
  - rewrite String.eqb_refl. reflexivity.
  - destruct (String.eqb (name g) (name f)) eqn:E.
    + apply String.eqb_eq in E. exfalso. apply Hnotin. rewrite E.
      apply in_map. exact Hin.
    + apply IH; assumption.
Qed.

Lemma respond_found (r : result summary) : respond r <> NotFound404.
Proof. destruct r; discriminate. Qed.

(** C7.  In a readable directory, and wherever the path of the active log
    leads, [get session] answers as follows.  When the active log
    [<id>.jsonl] exists, the answer is its summary.  When it does not, the
    answer is the summary of the first entry whose name starts with
    [<id>.jsonl.deleted].  The answer is the not-found answer exactly when
    there is neither.  The not-found answer is distinct from the
    server-error answer, which is what a failure to summarize the resolved
    log gives. *)
Theorem get_session_resolution (at_path : paths) (sessionId : string)
  (entries : list file) :
  let answer := get_session_at at_path sessionId (Dir entries) in
  (forall f, active_at at_path sessionId f ->
     (forall s, parseSessionFile f = Ok s -> answer = Ok200 s)
     /\ (forall e, parseSessionFile f = Throw e -> answer = Error500))
  /\ ((forall f, ~ active_at at_path sessionId f) ->
      (forall pre v post,
         entries = pre ++ v :: post ->
         (forall x, In x pre -> archived_variant sessionId x = false) ->
         archived_variant sessionId v = true ->
         (forall s, parseSessionFile v = Ok s -> answer = Ok200 s)
         /\ (forall e, parseSessionFile v = Throw e -> answer = Error500))
      /\ ((forall x, In x entries -> archived_variant sessionId x = false) ->
          answer = NotFound404))
  /\ (answer = NotFound404 ->
      (forall f, ~ active_at at_path sessionId f)
      /\ (forall x, In x entries -> archived_variant sessionId x = false)).
Proof.
  intro answer.
  assert (Hactive : forall f, active_at at_path sessionId f ->
            answer = respond (parseSessionFile f)).
  { intros f (Hpath & Hstat). unfold answer, get_session_at, exists_at, parse_at.
    rewrite Hpath.
    destruct (stat f); [reflexivity | contradiction Hstat; reflexivity]. }
  assert (Hnone : (forall f, ~ active_at at_path sessionId f) ->
            exists_at at_path (sessionId ++ ".jsonl") = false).
  { intro Hno. unfold exists_at.
    destruct (at_path (sessionId ++ ".jsonl")%string) as [g |] eqn:E;
      [| reflexivity].
    destruct (stat g) eqn:Es; [| reflexivity].
    exfalso. apply (Hno g). split; [exact E | congruence]. }
  split; [| split].
  - intros f Hf. rewrite (Hactive f Hf).
    split; [intros s -> | intros e ->]; reflexivity.
  - intro Hno. unfold answer, get_session_at. rewrite (Hnone Hno). simpl.
    split.
    + intros pre v post -> Hpre Hv.
      unfold archived_variant in *. rewrite (find_first _ _ _ _ Hpre Hv).
      split; [intros s -> | intros e ->]; reflexivity.
    + intro Hall. unfold archived_variant in *.
      rewrite (find_all_false _ _ Hall). reflexivity.
  - intro H. split.
    + intros f Hf. rewrite (Hactive f Hf) in H. exact (respond_found _ H).
    + unfold answer, get_session_at in H.
      destruct (exists_at at_path (sessionId ++ ".jsonl")).
      * exfalso. exact (respond_found _ H).
      * simpl in H.
        destruct (find (fun f => startsWith (sessionId ++ ".jsonl.deleted")
                                   (name f)) entries) as [v |] eqn:E.
        -- exfalso. exact (respond_found _ H).
        -- intros x Hx. exact (find_none _ _ E x Hx).
Qed.

(** ** The recency window *)

(** C9.  A recency-window parameter that is the string [0], or a string
    from which [parseInt] reads no integer, gives the window of 1440
    minutes, and the listing is the same as when the parameter is absent. *)
Theorem window_falls_back_to_default (q : string) (qArchived : value)
  (now : Z) (d : directory) :
  q = "0" \/ parseInt q = None ->
  window_minutes q = 1440%Z
  /\ list_sessions (VStr q) qArchived now d
     = list_sessions VUndef qArchived now d.
Proof.
  intro Hq.
  assert (Hw : window_minutes q = 1440%Z).
  { unfold window_minutes. destruct Hq as [-> | ->]; reflexivity. }
  split; [exact Hw |].
  unfold list_sessions. simpl to_string. cbv iota. rewrite Hw. reflexivity.
Qed.

(** ** [GET /api/sessions] *)

Lemma insert_desc_perm (x : summary) (l : list summary) :
  Permutation (insert_desc x l) (x :: l).
Proof.
  induction l as [| y l IH]; simpl; [apply Permutation_refl |].
  destruct (lastUpdated y <=? lastUpdated x)%Z; [apply Permutation_refl |].
  apply perm_trans with (y :: x :: l); [| apply perm_swap].
  apply perm_skip. exact IH.
Qed.

Lemma sort_desc_perm (l : list summary) : Permutation (sort_desc l) l.
Proof.
  induction l as [| x l IH]; simpl; [apply perm_nil |].
  apply perm_trans with (x :: sort_desc l); [apply insert_desc_perm |].
  apply perm_skip. exact IH.
Qed.

Lemma summaries_length (files : list file) :
  List.length (summaries files) = List.length (filter summarizable files).
Proof.
  induction files as [| f files IH]; simpl; [reflexivity |].
  unfold summarizable at 1.
  destruct (parseSessionFile f); simpl; rewrite IH; reflexivity.
Qed.

Lemma scan_spec (cutoff : Z) (files : list file) :
  Forall (fun f => stat f <> None) files ->
  forall sessions console,
    scan cutoff files sessions console
    = (Ok (sessions ++ summaries (filter (in_window cutoff) files)),
       console ++ map name (filter (fun f => negb (summarizable f))
                              (filter (in_window cutoff) files))).
Proof.
  induction 1 as [| f files Hf _ IH]; simpl; intros sessions console.
  - rewrite !app_nil_r. reflexivity.
  - unfold statSync.
    destruct (stat f) as [st |] eqn:Es; [| contradiction Hf; reflexivity].
    assert (Hw : in_window cutoff f = negb (time_lt (mtime st) cutoff))
      by (unfold in_window; rewrite Es; reflexivity).
    rewrite Hw. destruct (time_lt (mtime st) cutoff); simpl; [apply IH |].
    unfold summarizable at 1.
    destruct (parseSessionFile f) as [s | e]; simpl; rewrite IH.
    + rewrite <- app_assoc. reflexivity.
    + rewrite <- app_assoc. reflexivity.
Qed.

(** The failures that the inner [try] catches.  When the metadata of every
    candidate can be read, the listing never fails on a file that cannot be
    summarized: it answers with the summaries of exactly the included files
    that can be, among them none of the others, and logs the name of each
    file that was left out, a file whose modification date is invalid being
    one of these.  So, under this condition, included files that are one
    corrupt file and [n] files that can be summarized yield exactly [n]
    summaries. *)
Lemma scanner_isolation (qActive qArchived : value) (q : string) (now : Z)
  (entries : list file) :
  to_string qActive = Ok q ->
  Forall (fun f => stat f <> None)
    (candidates (negb (str_eq qArchived "false")) entries) ->
  let files := included q qArchived now entries in
  exists body,
    list_sessions qActive qArchived now (Dir entries)
    = (Ok200 body,
       map name (filter (fun f => negb (summarizable f)) files))
    /\ Permutation (sessions body) (summaries files)
    /\ count body = List.length (filter summarizable files)
    /\ count body = List.length (sessions body)
    /\ forall corrupt rest n,
         Permutation files (corrupt :: rest) ->
         summarizable corrupt = false ->
         Forall (fun f => summarizable f = true) rest ->
         List.length rest = n ->
         count body = n.
Proof.
  intros Hq Hstat files. unfold list_sessions. rewrite Hq. simpl readdirSync.
  cbv iota. rewrite (scan_spec _ _ Hstat). simpl app. cbv iota.
  fold (included q qArchived now entries). fold files.
  eexists. split; [reflexivity |]. simpl.
  assert (Hlen : List.length (sort_desc (summaries files))
                 = List.length (filter summarizable files)).
  { rewrite (Permutation_length (sort_desc_perm _)). apply summaries_length. }
  split; [apply sort_desc_perm |]. split; [exact Hlen |].
  split; [reflexivity |].
  intros corrupt rest n Hperm Hbad Hgood <-. rewrite Hlen.
  assert (Hp : Permutation (filter summarizable files)
                 (filter summarizable (corrupt :: rest))).
  { clear - Hperm. induction Hperm; simpl.
    - apply perm_nil.
    - destruct (summarizable x); [apply perm_skip |]; assumption.
    - destruct (summarizable x), (summarizable y);
        solve [apply perm_swap | apply Permutation_refl].
    - eapply perm_trans; eassumption. }
  rewrite (Permutation_length Hp). simpl. rewrite Hbad.
  f_equal. clear - Hgood. induction Hgood as [| g rest Hg _ IH]; simpl.
  - reflexivity.
  - rewrite Hg, IH. reflexivity.
Qed.

(** The call to [fs.statSync] in the loop is not under the inner [try]: a
    candidate whose metadata cannot be read ends the loop. *)
Lemma scan_fails_on_stat_failure (cutoff : Z) (files : list file) :
  (exists f, In f files /\ stat f = None) ->
  forall sessions console,
    exists console', scan cutoff files sessions console = (Throw IOError, console').
Proof.
  induction files as [| g files IH]; intros (f & Hin & Hstat) sessions console.
  - contradiction Hin.
  - simpl. unfold statSync. destruct (stat g) as [st |] eqn:Es.
    + assert (Hrest : exists f, In f files /\ stat f = None).
      { exists f. destruct Hin as [-> | Hin]; [congruence | auto]. }
      destruct (time_lt (mtime st) cutoff); [apply IH; exact Hrest |].
      destruct (parseSessionFile g); apply IH; exact Hrest.
    + exists console. reflexivity.
Qed.

(** C2.  The listing does not isolate every failure of a single candidate.
    The failures raised while a file is summarized are caught, but a
    candidate whose metadata cannot be read fails the whole request: the
    answer is the server error, whatever the other candidates are and
    whether or not the candidate is inside the window, and no summary is
    returned. *)
Theorem listing_fails_on_unreadable_metadata (qActive qArchived : value)
  (q : string) (now : Z) (entries : list file) :
  to_string qActive = Ok q ->
  (exists f, In f (candidates (negb (str_eq qArchived "false")) entries)
             /\ stat f = None) ->
  exists console,
    list_sessions qActive qArchived now (Dir entries) = (Error500, console).
Proof.
  intros Hq Hbad. unfold list_sessions. rewrite Hq. simpl readdirSync.
  cbv iota.
  destruct (scan_fails_on_stat_failure
              (now - window_minutes q * 60 * 1000)%Z _ Hbad [] [])
    as (console & ->).
  exists console. reflexivity.
Qed.

(** ** Well-formed logs are summarized *)

Lemma find_m_result (p : value -> result bool) (lines : list value) :
  (forall l, In l lines -> exists b, p l = Ok b) ->
  exists v, find_m p lines = Ok v
            /\ (v = VUndef \/ (In v lines /\ p v = Ok true)).
Proof.
  induction lines as [| x lines IH]; simpl; intro H.
  - exists VUndef. auto.
  - destruct (H x (or_introl eq_refl)) as ([|] & Hb); rewrite Hb; simpl.
    + exists x. auto.
    + destruct (IH (fun l Hl => H l (or_intror Hl))) as (v & Hv & Hor).
      exists v. split; [exact Hv |]. destruct Hor as [-> | [Hin Hp]]; auto.
Qed.

Lemma filter_m_total (p : value -> result bool) (lines : list value) :
  (forall l, In l lines -> exists b, p l = Ok b) ->
  exists r, filter_m p lines = Ok r.
Proof.
  induction lines as [| x lines IH]; simpl; intro H.
  - exists []. reflexivity.
  - destruct (H x (or_introl eq_refl)) as (b & Hb). rewrite Hb. simpl.
    destruct (IH (fun l Hl => H l (or_intror Hl))) as (r & Hr).
    rewrite Hr. simpl. eexists. reflexivity.
Qed.

Lemma is_session_total (l : value) :
  nullish l = false -> exists b, is_session l = Ok b.
Proof.
  intro H. unfold is_session. rewrite (get_not_nullish _ _ H). simpl.
  eexists. reflexivity.
Qed.

Lemma is_message_total (l : value) :
  nullish l = false -> exists b, is_message l = Ok b.
Proof.
  intro H. unfold is_message. rewrite !(get_not_nullish _ _ H). simpl.
  destruct (str_eq (opt_get "type" l) "message"); eexists; reflexivity.
Qed.

Lemma is_label_event_total (l : value) :
  nullish l = false -> exists b, is_label_event l = Ok b.
Proof.
  intro H. unfold is_label_event. rewrite !(get_not_nullish _ _ H). simpl.
  destruct (str_eq (opt_get "type" l) "custom"); eexists; reflexivity.
Qed.

Lemma is_model_snapshot_total (l : value) :
  nullish l = false -> exists b, is_model_snapshot l = Ok b.
Proof.
  intro H. unfold is_model_snapshot. rewrite (get_not_nullish _ _ H). simpl.
  eexists. reflexivity.
Qed.

Lemma is_task_line_total (l : value) :
  nullish l = false ->
  is_string (task_text l) = true \/ nullish (task_text l) = true ->
  exists b, is_task_line l = Ok b.
Proof.
  intros H Ht. unfold is_task_line. rewrite !(get_not_nullish _ _ H). simpl.
  unfold task_text, payload in Ht.
  destruct (str_eq (opt_get "type" l) "message"); [| eexists; reflexivity].
  destruct (opt_get "text" (opt_index0 (opt_get "content" (opt_get "message" l))));
    simpl in Ht; destruct Ht as [Ht | Ht]; try discriminate Ht;
    simpl; eexists; reflexivity.
Qed.

Lemma step_total (a : acc) (l : value) (t c : Q) :
  truthy (payload l) = true ->
  number_or_absent (token_field l) ->
  number_or_absent (cost_field l) ->
  acc_totalTokens a = VNum t ->
  acc_totalCost a = VNum c ->
  exists a', step a l = Ok a'.
Proof.
  intros Hl Ht Hc Et Ec. destruct (payload_truthy l Hl) as (Hn & Hm & _).
  unfold token_field, cost_field, usage_of in Ht, Hc. rewrite Hm in Ht, Hc.
  unfold step. rewrite (get_not_nullish _ _ Hn). simpl. rewrite Et, Ec.
  destruct (truthy (opt_get "usage" (opt_get "message" l))) eqn:Hu;
    [| eexists; reflexivity].
  rewrite !(get_not_nullish _ _ (truthy_not_nullish _ Hu)). simpl.
  destruct (opt_get "totalTokens" (opt_get "usage" (opt_get "message" l)));
    try contradiction;
    destruct (opt_get "total"
                (opt_get "cost" (opt_get "usage" (opt_get "message" l))));
    try contradiction; simpl;
    repeat match goal with
           | |- context [negb (Qeq_bool ?q 0)] =>
               destruct (negb (Qeq_bool q 0)); simpl
           end;
    eexists; reflexivity.
Qed.

Lemma fold_step_total (ms : list value) :
  Forall (fun l => truthy (payload l) = true) ms ->
  (forall l, In l ms ->
     number_or_absent (token_field l) /\ number_or_absent (cost_field l)) ->
  forall a t c,
    acc_totalTokens a = VNum t ->
    acc_totalCost a = VNum c ->
    exists a', fold_m step ms a = Ok a'.
Proof.
  induction 1 as [| l ms Hl _ IH]; simpl; intros Hty a t c Et Ec.
  - exists a. reflexivity.
  - destruct (Hty l (or_introl eq_refl)) as [Htl Hcl].
    destruct (step_total a l t c Hl Htl Hcl Et Ec) as (a1 & Ha1).
    destruct (step_numeric _ _ _ _ _ Ha1 Hl Htl Hcl Et Ec)
      as (t1 & c1 & Et1 & Ec1 & _).
    rewrite Ha1. simpl.
    exact (IH (fun x Hx => Hty x (or_intror Hx)) a1 t1 c1 Et1 Ec1).
Qed.

Lemma opt_get_not_nullish (k : string) (v : value) :
  nullish (opt_get k v) = false -> nullish v = false.
Proof. destruct v; simpl; congruence. Qed.

Lemma opt_index0_not_nullish (v : value) :
  nullish (opt_index0 v) = false -> nullish v = false.
Proof. destruct v; simpl; congruence. Qed.

Lemma task_label_total (lines : list value) :
  Forall well_formed_line lines -> exists lbl, task_label lines = Ok lbl.
Proof.
  intro Hwf. rewrite Forall_forall in Hwf. unfold task_label.
  destruct (find_m_result is_task_line lines) as (v & Hv & Hor).
  { intros l Hl. destruct (Hwf l Hl) as (Hn & _ & _ & _ & Ht).
    apply is_task_line_total; assumption. }
  rewrite Hv. simpl. destruct Hor as [-> | [Hin Hp]].
  - eexists. reflexivity.
  - apply is_task_line_Ok in Hp. symmetry in Hp.
    destruct (task_text_payload _ Hp) as [Htr Hpay].
    destruct (Hwf v Hin) as (Hn & _ & _ & _ & Ht).
    unfold task_text in Hp, Ht. rewrite Hpay in Hp, Ht.
    destruct (opt_get "text" (opt_index0 (opt_get "content" (opt_get "message" v))))
      as [| | | | | txt | |] eqn:Etext;
      simpl in Hp; try discriminate Hp;
      [| destruct Ht as [Ht | Ht]; discriminate Ht].
    assert (N1 : nullish (opt_index0 (opt_get "content" (opt_get "message" v)))
                 = false)
      by (apply (opt_get_not_nullish "text"); rewrite Etext; reflexivity).
    pose proof (opt_index0_not_nullish _ N1) as N2.
    pose proof (opt_get_not_nullish _ _ N2) as N3.
    rewrite Htr, (get_not_nullish _ _ Hn). simpl.
    rewrite (get_not_nullish _ _ N3). simpl.
    unfold index0. rewrite N2. simpl.
    rewrite (get_not_nullish _ _ N1). simpl. rewrite Etext. simpl.
    eexists. reflexivity.
Qed.

(** [parseSessionFile] returns a summary for every well-formed log. *)
Theorem well_formed_log_is_summarized (f : file) :
  well_formed_log f -> exists s, parseSessionFile f = Ok s.
Proof.
  intros (Hstat & Hdates & Hcontent & Hwf). unfold lines_of in Hwf.
  unfold parseSessionFile, statSync, readLines.
  destruct (stat f) as [st |] eqn:Es; [| contradiction Hstat; reflexivity].
  destruct (Hdates st Es) as [Vm Vb].
  destruct (content f) as [ls |]; [| contradiction Hcontent; reflexivity].
  simpl. pose proof Hwf as Hall. rewrite Forall_forall in Hall.
  assert (Hnn : forall l, In l (decoded ls) -> nullish l = false)
    by (intros l Hl; apply (Hall l Hl)).
  (* the session key *)
  assert (Hkey : exists sk, session_key (decoded ls)
                              (extractSessionId (name f)) = Ok sk).
  { unfold session_key.
    destruct (find_m_result is_session (decoded ls)) as (v & Hv & Hor).
    { intros l Hl. apply is_session_total, Hnn, Hl. }
    rewrite Hv. simpl. destruct Hor as [-> | [Hin _]].
    - eexists. reflexivity.
    - destruct (Hall v Hin) as (_ & Hid & _).
      destruct (truthy (opt_get "id" v)) eqn:Etr; [| eexists; reflexivity].
      destruct Hid as [Hid | Hid]; [| congruence].
      destruct (opt_get "id" v); try discriminate Hid.
      simpl. eexists. reflexivity. }
  destruct Hkey as (sk & ->). simpl.
  (* the accumulation pass *)
  destruct (filter_m_total is_message (decoded ls)) as (ms & Hms).
  { intros l Hl. apply is_message_total, Hnn, Hl. }
  rewrite Hms. simpl.
  destruct (filter_m_is_message _ _ Hms) as [Hfilter _].
  destruct (fold_step_total ms) with (a := acc0) (t := 0%Q) (c := 0%Q)
    as (a & Ha); try reflexivity.
  { rewrite Hfilter. apply filter_Forall_true. }
  { intros l Hl. rewrite Hfilter in Hl. apply filter_In in Hl.
    destruct (Hall l (proj1 Hl)) as (_ & _ & Ht & Hc & _). auto. }
  unfold accumulate. rewrite Ha. simpl.
  destruct (fold_step_numeric ms) with (a := acc0) (a' := a) (t := 0%Q)
                                       (c := 0%Q)
    as (t & c & Et & _); try reflexivity; try exact Ha.
  { rewrite Hfilter. apply filter_Forall_true. }
  { intros l Hl. rewrite Hfilter in Hl. apply filter_In in Hl.
    destruct (Hall l (proj1 Hl)) as (_ & _ & Ht & Hc & _). auto. }
  (* the label *)
  assert (Hlabel : exists lbl, resolve_label (decoded ls) sk = Ok lbl).
  { unfold resolve_label.
    destruct (find_m_result is_label_event (decoded ls)) as (v & Hv & _).
    { intros l Hl. apply is_label_event_total, Hnn, Hl. }
    rewrite Hv. simpl.
    destruct (truthy (opt_get "label" (opt_get "data" v)));
      [eexists; reflexivity |].
    destruct (includes "subagent" sk); [| eexists; reflexivity].
    apply task_label_total, Hwf. }
  destruct Hlabel as (lbl & ->). simpl.
  (* the model and the status *)
  unfold resolve_model.
  destruct (find_m_result is_model_snapshot (decoded ls)) as (v & Hv & _).
  { intros l Hl. apply is_model_snapshot_total, Hnn, Hl. }
  rewrite Hv. simpl. unfold resolve_status. rewrite Et. simpl.
  unfold toISOString. rewrite Vm, Vb. simpl.
  eexists. reflexivity.
Qed.

(** ** Strings: the built-in tests against their meaning *)

Lemma prefix_iff (p s : string) :
  String.prefix p s = true <-> exists r, s = (p ++ r)%string.
Proof.
  revert s. induction p as [| a p IH]; intro s.
  - split; [intros _; exists s; reflexivity | destruct s; reflexivity].
  - destruct s as [| b s]; simpl.
    + split; [discriminate | intros (r & Hr); discriminate Hr].
    + destruct (ascii_dec a b) as [-> | Hab].
      * rewrite IH. split; intros (r & Hr); exists r; congruence.
      * split; [discriminate | intros (r & Hr); congruence].
Qed.

Lemma includes_unfold (needle s : string) :
  includes needle s
  = if String.prefix needle s then true
    else match s with
         | EmptyString => false
         | String _ s' => includes needle s'
         end.
Proof. destruct s; reflexivity. Qed.

Lemma includes_iff (needle s : string) :
  includes needle s = true <-> exists a b, s = (a ++ needle ++ b)%string.
Proof.
  induction s as [| c s IH]; rewrite includes_unfold.
  - destruct (String.prefix needle "") eqn:E.
    + split; [intros _ | reflexivity].
      apply prefix_iff in E. destruct E as (r & Hr). exists "", r. exact Hr.
    + split; [discriminate |]. intros (a & b & H).
      destruct a; [| discriminate H].
      assert (String.prefix needle "" = true)
        by (apply prefix_iff; exists b; exact H).
      congruence.
  - destruct (String.prefix needle (String c s)) eqn:E.
    + split; [intros _ | reflexivity].
      apply prefix_iff in E. destruct E as (r & Hr). exists "", r. exact Hr.
    + rewrite IH. split.
      * intros (a & b & ->). exists (String c a), b. reflexivity.
      * intros (a & b & H). destruct a as [| c' a]; simpl in H.
        -- assert (String.prefix needle (String c s) = true)
             by (apply prefix_iff; exists b; exact H).
           congruence.
        -- injection H as _ ->. exists a, b. reflexivity.
Qed.

Lemma endsWith_iff (suf s : string) :
  endsWith suf s = true <-> exists a, s = (a ++ suf)%string.
Proof.
  induction s as [| c s IH]; simpl.
  - destruct (String.eqb suf "") eqn:E.
    + apply String.eqb_eq in E. subst suf.
      split; [intros _; exists ""; reflexivity | reflexivity].
    + split; [discriminate |]. intros (a & H).
      destruct a; [| discriminate H]. simpl in H. subst suf.
      discriminate E.
  - destruct (String.eqb suf (String c s)) eqn:E.
    + apply String.eqb_eq in E. subst suf.
      split; [intros _; exists ""; reflexivity | reflexivity].
    + rewrite IH. split.
      * intros (a & ->). exists (String c a). reflexivity.
      * intros (a & H). destruct a as [| c' a]; simpl in H.
        -- subst suf. rewrite String.eqb_refl in E. discriminate E.
        -- injection H as _ ->. exists a. reflexivity.
Qed.

Lemma append_assoc (a b c : string) :
  ((a ++ b) ++ c = a ++ b ++ c)%string.
Proof. induction a as [| x a IH]; simpl; [reflexivity | rewrite IH; reflexivity]. Qed.

Lemma append_empty_r (a : string) : (a ++ "")%string = a.
Proof. induction a as [| x a IH]; simpl; [reflexivity | rewrite IH; reflexivity]. Qed.

(** A name that ends with a suffix ends with the last character of the
    suffix. *)
Lemma last_char_append (a suf : string) :
  suf <> ""%string -> last_char (a ++ suf) = last_char suf.
Proof.
  intro Hne. induction a as [| c a IH]; simpl; [reflexivity |].
  rewrite IH. destruct (a ++ suf)%string eqn:E; [| reflexivity].
  destruct a; simpl in E; [contradiction | discriminate E].
Qed.

Lemma endsWith_other_last (suf other s : string) :
  suf <> ""%string -> other <> ""%string ->
  last_char suf <> last_char other ->
  endsWith suf s = true -> endsWith other s = false.
Proof.
  intros Hs Ho Hdiff H. apply endsWith_iff in H. destruct H as (a & ->).
  destruct (endsWith other (a ++ suf)) eqn:E; [| reflexivity].
  apply endsWith_iff in E. destruct E as (b & Hb).
  exfalso. apply Hdiff.
  rewrite <- (last_char_append a suf Hs), Hb. apply last_char_append, Ho.
Qed.

(** ** [extractSessionId] *)

Lemma span_id_spec (s : string) :
  let (id, rest) := span_id s in
  s = (id ++ rest)%string /\ all_id_chars id = true
  /\ match rest with
     | String c _ => is_id_char c = false
     | EmptyString => True
     end.
Proof.
  induction s as [| c s IH]; simpl; [auto |].
  destruct (is_id_char c) eqn:Ec.
  - destruct (span_id s) as [id rest]. destruct IH as (-> & Hall & Hrest).
    simpl. rewrite Ec, Hall. auto.
  - simpl. auto.
Qed.

Lemma span_id_app (id rest : string) :
  all_id_chars id = true ->
  match rest with
  | String c _ => is_id_char c = false
  | EmptyString => True
  end ->
  span_id (id ++ rest) = (id, rest).
Proof.
  intros Hall Hrest. induction id as [| c id IH]; simpl in *.
  - destruct rest as [| c rest]; simpl; [reflexivity |].
    rewrite Hrest. reflexivity.
  - apply andb_prop in Hall. destruct Hall as [-> Hall].
    rewrite (IH Hall). reflexivity.
Qed.

(** X1.  The identifier of a log is recovered from its name: for a
    canonical identifier, the name [<id>.jsonl] followed by anything, an
    archival suffix in particular, gives back [<id>]. *)
Theorem extractSessionId_round_trip (id suffix : string) :
  canonical_id id ->
  extractSessionId (id ++ ".jsonl" ++ suffix) = id.
Proof.
  intros [Hne Hall]. unfold extractSessionId.
  rewrite (span_id_app id (".jsonl" ++ suffix) Hall); [| reflexivity].
  assert (Hp : String.prefix ".jsonl" (".jsonl" ++ suffix) = true)
    by (apply prefix_iff; exists suffix; reflexivity).
  rewrite Hp. destruct id; [contradiction Hne; reflexivity |]. reflexivity.
Qed.

(** X2.  [extractSessionId] answers either with the file name as it is, or
    with a canonical identifier that the name continues with [.jsonl]; it
    never cuts a name anywhere else. *)
Theorem extractSessionId_shape (filename : string) :
  extractSessionId filename = filename
  \/ (canonical_id (extractSessionId filename)
      /\ exists rest,
           filename = (extractSessionId filename ++ ".jsonl" ++ rest)%string).
Proof.
  unfold extractSessionId. pose proof (span_id_spec filename) as H.
  destruct (span_id filename) as [id rest]. destruct H as (Hname & Hall & _).
  destruct (negb (String.eqb id "")) eqn:Hne; simpl; [| left; reflexivity].
  destruct (String.prefix ".jsonl" rest) eqn:Hp; [| left; reflexivity].
  right. apply prefix_iff in Hp. destruct Hp as (r & ->). split.
  - split; [| exact Hall]. intros ->. discriminate Hne.
  - exists r. exact Hname.
Qed.

(** ** Further facts about a summary *)

Lemma parseSessionFile_fields (f : file) (s : summary) :
  parseSessionFile f = Ok s ->
  sessionId s = extractSessionId (name f)
  /\ isDeleted s = includes ".deleted" (name f)
  /\ filePath s = name f
  /\ exists st, stat f = Some st /\ lastUpdated s = mtime st
                /\ createdAt s = birthtime st.
Proof.
  unfold parseSessionFile, statSync, readLines. intro H.
  destruct (stat f) as [st |]; simpl in H; [| discriminate H].
  destruct (content f) as [ls |]; simpl in H; [| discriminate H].
  unbind H as sk Hsk. unbind H as ms Hms. unbind H as a Ha.
  unbind H as lbl Hlbl. unbind H as md Hmd. unbind H as stt Hstt.
  unbind H as lu Hlu. unbind H as ca Hca.
  unfold toISOString in Hlu, Hca.
  destruct (valid_time (mtime st)); [| discriminate Hlu].
  destruct (valid_time (birthtime st)); [| discriminate Hca].
  injection Hlu as <-. injection Hca as <-.
  injection H as <-. simpl. repeat split. exists st. auto.
Qed.

Lemma parsed_lines_not_null (f : file) (s : summary) :
  parseSessionFile f = Ok s ->
  Forall (fun l => nullish l = false) (lines_of f).
Proof.
  intro H. apply parseSessionFile_inv in H.
  destruct H as (st & ls & ms & a & _ & Hls & _ & Hms & _).
  rewrite (lines_of_content _ _ Hls).
  apply filter_m_is_message in Hms. tauto.
Qed.

(** X3.  A log one of whose lines decodes to [null] is never summarized:
    [parseSessionFile] throws. *)
Theorem null_line_throws (f : file) :
  In VNull (lines_of f) -> exists e, parseSessionFile f = Throw e.
Proof.
  intro Hin. destruct (parseSessionFile f) as [s | e] eqn:E.
  - apply parsed_lines_not_null in E. rewrite Forall_forall in E.
    specialize (E VNull Hin). discriminate E.
  - exists e. reflexivity.
Qed.

(** X5.  Without any event tagged [model-snapshot], the model of the
    summary is the one that the last message naming a model gave, and
    [unknown] when no message names one. *)
Theorem model_without_snapshot (f : file) (s : summary) :
  parseSessionFile f = Ok s ->
  (forall l, In l (lines_of f) -> tagged_model_snapshot l = false) ->
  model s = last_message_model (lines_of f)
  /\ (last_observed "model" (lines_of f) = None -> model s = VStr "unknown").
Proof.
  intros H Hno. apply parseSessionFile_inv in H.
  destruct H as (st & ls & ms & a & _ & Hls & _ & Hms & Ha & _ & Hmodel & _).
  rewrite (lines_of_content _ _ Hls) in *.
  destruct (accumulate_last _ _ _ Hms Ha) as [_ Hscan].
  unfold resolve_model in Hmodel. unbind Hmodel as modelLine Hfind.
  apply (find_m_none _ _ is_model_snapshot_Ok) in Hfind; auto.
  subst modelLine. simpl in Hmodel. injection Hmodel as <-.
  split; [exact Hscan |]. intro Hnone. rewrite Hscan.
  unfold last_message_model. rewrite Hnone. reflexivity.
Qed.

(** X6.  A log without message lines has both totals at zero and is [idle],
    or [archived] when its name is flagged: no other event type moves the
    totals or the status. *)
Theorem summary_without_messages (f : file) (s : summary) :
  parseSessionFile f = Ok s ->
  messagelines (lines_of f) = [] ->
  messageCount s = 0%nat
  /\ totalTokens s = VNum 0 /\ totalCost s = VNum 0
  /\ status s = if includes ".deleted" (name f) then archived else idle.
Proof.
  intros H Hnone. apply parseSessionFile_inv in H.
  destruct H as (st & ls & ms & a & _ & Hls & _ & Hms & Ha & _ & _ & Hst
                 & Htok & Hcost & Hdel & Hcount & _).
  rewrite (lines_of_content _ _ Hls) in Hnone.
  apply filter_m_is_message in Hms. destruct Hms as [-> _].
  unfold messagelines in Hnone. rewrite Hnone in *.
  injection Ha as <-. rewrite Hdel in Hst. simpl in *. injection Hst as <-.
  rewrite Htok, Hcost, Hcount. repeat split.
Qed.

(** ** The session key *)

Lemma is_session_Ok (l : value) (b : bool) :
  is_session l = Ok b -> b = session_typed l.
Proof.
  unfold is_session, session_typed. intro H.
  unbind H as t Ht. apply get_Ok in Ht. destruct Ht as [_ ->]. congruence.
Qed.

(** X7.  The session key comes from the first event of type [session]
    alone: with a non-empty string [id] there, the key is [agent:main:]
    followed by that id; with no [id] there, or with no such event at all,
    the key is the session id taken from the file name, whatever later
    session events carry. *)
Theorem session_key_from_first_session_event (f : file) (s : summary) :
  parseSessionFile f = Ok s ->
  (forall pre e post,
     lines_of f = pre ++ e :: post ->
     (forall x, In x pre -> session_typed x = false) ->
     session_typed e = true ->
     (forall id, opt_get "id" e = VStr id -> id <> ""%string ->
        sessionKey s = ("agent:main:" ++ id)%string)
     /\ (truthy (opt_get "id" e) = false -> sessionKey s = sessionId s))
  /\ ((forall x, In x (lines_of f) -> session_typed x = false) ->
      sessionKey s = sessionId s).
Proof.
  intro H. destruct (parseSessionFile_fields _ _ H) as (Hid & _).
  apply parseSessionFile_inv in H.
  destruct H as (st & ls & ms & a & _ & Hls & Hkey & _).
  rewrite (lines_of_content _ _ Hls). rewrite Hid.
  unfold session_key in Hkey. unbind Hkey as sessionLine Hfind. split.
  - intros pre e post Hlines Hpre He. rewrite Hlines in Hfind.
    apply (find_m_first _ _ is_session_Ok) in Hfind; auto. subst sessionLine.
    split.
    + intros id Hstr Hne. rewrite Hstr in Hkey. simpl in Hkey.
      destruct (String.eqb id "") eqn:E;
        [apply String.eqb_eq in E; contradiction |].
      simpl in Hkey. injection Hkey as <-. reflexivity.
    + intro Hfalsy. rewrite Hfalsy in Hkey. congruence.
  - intro Hno.
    apply (find_m_none _ _ is_session_Ok) in Hfind; auto.
    subst sessionLine. simpl in Hkey. congruence.
Qed.

(** ** The empty log *)

(** X8.  A readable log with valid modification and creation dates in
    which no line decodes, an empty file or one with only blank and
    malformed lines, is summarized with every default: the key is the
    session id, token and cost totals are zero, there is no message, the
    model is [unknown], the status is [idle] or [archived] by the file name,
    and the label is [Main], or [Sub-agent] when the session id contains
    [subagent]. *)
Theorem empty_log_defaults (f : file) (st : stats) (ls : list line) :
  stat f = Some st ->
  valid_time (mtime st) = true ->
  valid_time (birthtime st) = true ->
  content f = Some ls ->
  decoded ls = [] ->
  parseSessionFile f
  = Ok {| sessionId := extractSessionId (name f);
          sessionKey := extractSessionId (name f);
          label := if includes "subagent" (extractSessionId (name f))
                   then VStr "Sub-agent" else VStr "Main";
          model := VStr "unknown";
          totalTokens := VNum 0;
          totalCost := VNum 0;
          status := if includes ".deleted" (name f) then archived else idle;
          messageCount := 0;
          lastUpdated := mtime st;
          createdAt := birthtime st;
          filePath := name f;
          isDeleted := includes ".deleted" (name f) |}.
Proof.
  intros Hstat Vm Vb Hcontent Hempty.
  unfold parseSessionFile, statSync, readLines.
  rewrite Hstat, Hcontent, Hempty. simpl.
  unfold resolve_label, task_label. simpl.
  destruct (includes "subagent" (extractSessionId (name f))); simpl;
    destruct (includes ".deleted" (name f)); simpl;
    unfold toISOString; rewrite Vm, Vb; reflexivity.
Qed.

Lemma decoded_no_json (ls : list line) :
  Forall (fun l => l = Blank \/ l = Malformed) ls -> decoded ls = [].
Proof.
  induction 1 as [| l ls [-> | ->] _ IH]; simpl; auto.
Qed.

(** ** The label found by the pattern *)

Lemma occurs_in_tail (piece s : string) (c : ascii) :
  occurs_in piece s -> occurs_in piece (String c s).
Proof. intros (a & b & ->). exists (String c a), b. reflexivity. Qed.

Lemma occurs_in_trans (x y z : string) :
  occurs_in x y -> occurs_in y z -> occurs_in x z.
Proof.
  intros (a & b & ->) (a' & b' & ->). exists (a' ++ a)%string, (b ++ b')%string.
  rewrite !append_assoc. reflexivity.
Qed.

Lemma all_chars_app (p : ascii -> bool) (a b : string) :
  all_chars p (a ++ b) = all_chars p a && all_chars p b.
Proof.
  induction a as [| c a IH]; simpl; [reflexivity |].
  rewrite IH, andb_assoc. reflexivity.
Qed.

Lemma all_chars_occurs (p : ascii -> bool) (piece s : string) :
  occurs_in piece s -> all_chars p s = true -> all_chars p piece = true.
Proof.
  intros (a & b & ->). rewrite !all_chars_app. intro H.
  apply andb_prop in H. destruct H as [_ H].
  apply andb_prop in H. destruct H as [H _]. exact H.
Qed.

Lemma take_capture_spec (s : string) :
  all_chars in_capture_class (take_capture s) = true
  /\ exists r, s = (take_capture s ++ r)%string.
Proof.
  induction s as [| c s [IHall (r & IHr)]]; simpl.
  - split; [reflexivity | exists ""; reflexivity].
  - destruct (in_capture_class c) eqn:Ec; simpl.
    + rewrite Ec, IHall. split; [reflexivity |]. exists r. congruence.
    + split; [reflexivity |]. exists (String c s). reflexivity.
Qed.

Lemma capture_at_spec (s cap : string) :
  capture_at s = Some cap ->
  cap <> ""%string /\ all_chars in_capture_class cap = true
  /\ occurs_in cap s.
Proof.
  unfold capture_at. destruct (take_capture_spec s) as [Hall (r & Hr)].
  destruct (take_capture s) as [| c t] eqn:E; [discriminate |].
  intro H. injection H as <-. split; [discriminate |]. split; [exact Hall |].
  exists "", r. exact Hr.
Qed.

Lemma after_sep_spec (s cap : string) :
  after_sep s = Some cap ->
  cap <> ""%string /\ all_chars in_capture_class cap = true
  /\ occurs_in cap s.
Proof.
  induction s as [| c s IH]; simpl; [discriminate |].
  destruct (in_sep_class c).
  - destruct (after_sep s) as [cap' |].
    + intro H. injection H as <-. destruct (IH eq_refl) as (H1 & H2 & H3).
      repeat split; auto. apply occurs_in_tail, H3.
    + apply capture_at_spec.
  - apply capture_at_spec.
Qed.

Lemma drop_occurs (n : nat) (s : string) : occurs_in (drop n s) s.
Proof.
  revert s. induction n as [| n IH]; intro s; simpl.
  - exists "", "". simpl. rewrite append_empty_r. reflexivity.
  - destruct s as [| c s].
    + exists "", "". reflexivity.
    + apply occurs_in_tail, IH.
Qed.

Lemma match_label_spec (s cap : string) :
  match_label s = Some cap ->
  cap <> ""%string /\ all_chars in_capture_class cap = true
  /\ occurs_in cap s.
Proof.
  assert (Here : forall t, match_label_here t = Some cap ->
            cap <> ""%string /\ all_chars in_capture_class cap = true
            /\ occurs_in cap t).
  { intros t. unfold match_label_here.
    destruct (prefix_ci "label" t); [| discriminate].
    pose proof (drop_occurs 5 t) as Hd.
    destruct (drop 5 t) as [| c r]; [discriminate |].
    destruct (in_sep_class c); [| discriminate].
    intro H. destruct (after_sep_spec _ _ H) as (H1 & H2 & H3).
    repeat split; auto.
    apply occurs_in_trans with (String c r); [| exact Hd].
    apply occurs_in_tail, H3. }
  induction s as [| c s IH].
  - simpl. discriminate.
  - simpl. destruct (match_label_here (String c s)) eqn:E.
    + intro H. injection H as ->. apply Here, E.
    + intro H. destruct (IH H) as (H1 & H2 & H3).
      repeat split; auto. apply occurs_in_tail, H3.
Qed.

Lemma trimStart_spec (s : string) :
  (exists a, s = (a ++ trimStart s)%string)
  /\ forall c, head_char (trimStart s) = Some c -> is_ws c = false.
Proof.
  induction s as [| c s [(a & IHa) IHh]]; simpl.
  - split; [exists ""; reflexivity | discriminate].
  - destruct (is_ws c) eqn:Ec.
    + split; [| exact IHh]. exists (String c a). simpl. congruence.
    + split; [exists ""; reflexivity |]. simpl. intros c' H. congruence.
Qed.

Lemma trimEnd_spec (s : string) :
  (exists b, s = (trimEnd s ++ b)%string)
  /\ (forall c, last_char (trimEnd s) = Some c -> is_ws c = false)
  /\ (forall c, head_char s = Some c -> is_ws c = false ->
        head_char (trimEnd s) = Some c).
Proof.
  induction s as [| c s ((b & IHb) & IHl & _)]; simpl.
  - split; [exists ""; reflexivity |]. split; discriminate.
  - destruct (trimEnd s) as [| d t] eqn:E.
    + destruct (is_ws c) eqn:Ec.
      * split; [exists (String c s); reflexivity |]. split; [discriminate |].
        intros c' H Hc'. congruence.
      * split; [exists s; reflexivity |]. split.
        -- simpl. intros c' H. congruence.
        -- intros c' H _. exact H.
    + split; [exists b; simpl in *; congruence |]. split.
      * intros c' H. apply IHl. exact H.
      * intros c' H _. exact H.
Qed.

Lemma trim_spec (s : string) :
  occurs_in (trim s) s
  /\ (forall c, head_char (trim s) = Some c -> is_ws c = false)
  /\ (forall c, last_char (trim s) = Some c -> is_ws c = false).
Proof.
  unfold trim. destruct (trimStart_spec s) as ((a & Ha) & Hhead).
  destruct (trimEnd_spec (trimStart s)) as ((b & Hb) & Hlast & Hkeep).
  split; [| split].
  - exists a, b. rewrite <- Hb. exact Ha.
  - intros c Hc. destruct (trimStart s) as [| d t] eqn:E; [discriminate Hc |].
    pose proof (Hhead d eq_refl) as Hd.
    rewrite (Hkeep d eq_refl Hd) in Hc. congruence.
  - exact Hlast.
Qed.

(** X9.  Whenever the label pattern matches a task text, the label that
    is extracted is a piece of that text, holds no quote, no closing brace
    and no line feed, and neither starts nor ends with white space. *)
Theorem extracted_label_shape (txt cap : string) :
  match_label txt = Some cap ->
  occurs_in (trim cap) txt
  /\ all_chars in_capture_class (trim cap) = true
  /\ (forall c, head_char (trim cap) = Some c -> is_ws c = false)
  /\ (forall c, last_char (trim cap) = Some c -> is_ws c = false).
Proof.
  intro H. destruct (match_label_spec _ _ H) as (_ & Hall & Hocc).
  destruct (trim_spec cap) as (Htrim & Hhead & Hlast).
  split; [exact (occurs_in_trans _ _ _ Htrim Hocc) |].
  split; [exact (all_chars_occurs _ _ _ Htrim Hall) |].
  split; assumption.
Qed.

(** ** The order and the contents of the listing *)

Lemma insert_desc_In (x y : summary) (l : list summary) :
  In y (insert_desc x l) -> y = x \/ In y l.
Proof.
  intro H. apply (Permutation_in _ (insert_desc_perm x l)) in H.
  destruct H as [<- | H]; auto.
Qed.

Lemma insert_desc_sorted (x : summary) (l : list summary) :
  descending l -> descending (insert_desc x l).
Proof.
  unfold descending. induction 1 as [| y l Hl IH Hy]; simpl.
  - constructor; constructor.
  - destruct (lastUpdated y <=? lastUpdated x)%Z eqn:E.
    + apply Z.leb_le in E. constructor; [constructor; assumption |].
      constructor; [exact E |].
      rewrite Forall_forall in *. intros z Hz. specialize (Hy z Hz). lia.
    + apply Z.leb_gt in E. constructor; [exact IH |].
      rewrite Forall_forall in *. intros z Hz.
      apply insert_desc_In in Hz. destruct Hz as [-> | Hz]; [lia | auto].
Qed.

Lemma sort_desc_sorted (l : list summary) : descending (sort_desc l).
Proof.
  induction l as [| x l IH]; simpl; [constructor |].
  apply insert_desc_sorted, IH.
Qed.

Lemma scan_sound (cutoff : Z) (files : list file) :
  forall sessions console found console',
    scan cutoff files sessions console = (Ok found, console') ->
    forall s, In s found ->
      In s sessions
      \/ exists f, In f files /\ parseSessionFile f = Ok s
                   /\ (cutoff <= lastUpdated s)%Z.
Proof.
  induction files as [| f files IH]; simpl;
    intros sessions console found console' H s Hs.
  - injection H as <- _. auto.
  - unfold statSync in H. destruct (stat f) as [st |] eqn:Es;
      [| discriminate H].
    destruct (time_lt (mtime st) cutoff) eqn:Ec.
    + destruct (IH _ _ _ _ H s Hs) as [? | (g & Hg & ?)]; [auto |].
      right. exists g. auto.
    + destruct (parseSessionFile f) as [s' | e] eqn:Ep.
      * destruct (IH _ _ _ _ H s Hs) as [Hin | (g & Hg & ?)].
        -- apply in_app_or in Hin. destruct Hin as [? | [<- | []]]; [auto |].
           right. exists f. split; [auto |]. split; [exact Ep |].
           destruct (parseSessionFile_dates _ _ Ep)
             as (st' & Hst' & Vm & _ & -> & _).
           assert (st' = st) by congruence. subst st'.
           unfold time_lt in Ec. rewrite Vm in Ec. simpl in Ec.
           apply Z.ltb_ge in Ec. exact Ec.
        -- right. exists g. auto.
      * destruct (IH _ _ _ _ H s Hs) as [? | (g & Hg & ?)]; [auto |].
        right. exists g. auto.
Qed.

(** X10.  Whenever the listing answers, its sessions are in descending
    order of [lastUpdated] and [count] is their number. *)
Theorem listing_is_sorted (qActive qArchived : value) (now : Z)
  (d : directory) (body : listing) (console : list string) :
  list_sessions qActive qArchived now d = (Ok200 body, console) ->
  descending (sessions body)
  /\ count body = List.length (sessions body).
Proof.
  unfold list_sessions. intro H.
  destruct (to_string qActive) as [q |]; [| discriminate H].
  destruct (readdirSync d) as [entries |]; [| discriminate H].
  destruct (scan _ _ [] []) as [[found | e] console'];
    [| discriminate H].
  injection H as <- _. simpl. split; [apply sort_desc_sorted | reflexivity].
Qed.

(** X11.  Whenever the listing answers, every session in it is the summary
    of an entry of the directory whose name passes the two name filters and
    whose modification time is not before the cutoff: no lock file, no file
    outside the window and no file that failed to parse is ever listed. *)
Theorem listing_is_sound (qActive qArchived : value) (q : string) (now : Z)
  (entries : list file) (body : listing) (console : list string) :
  to_string qActive = Ok q ->
  list_sessions qActive qArchived now (Dir entries) = (Ok200 body, console) ->
  forall s, In s (sessions body) ->
    exists f,
      In f entries
      /\ is_candidate (negb (str_eq qArchived "false")) (name f) = true
      /\ parseSessionFile f = Ok s
      /\ (now - window_minutes q * 60 * 1000 <= lastUpdated s)%Z.
Proof.
  unfold list_sessions. intros Hq H s Hs. rewrite Hq in H. simpl in H.
  destruct (scan _ _ [] []) as [[found | e] console'] eqn:Escan;
    [| discriminate H].
  injection H as <- _. simpl in Hs.
  apply (Permutation_in _ (sort_desc_perm found)) in Hs.
  destruct (scan_sound _ _ _ _ _ _ Escan s Hs) as [[] | (f & Hf & Hp & Hc)].
  apply filter_In in Hf. exists f. tauto.
Qed.

(** X12.  A negative window, such as [-5], puts the cutoff after the time
    of the request: when every candidate can be stat-ed, has a valid
    modification date and was not modified after the request, the listing
    is empty, and nothing is parsed or logged. *)
Theorem negative_window_lists_nothing (qActive qArchived : value)
  (q : string) (now : Z) (entries : list file) :
  to_string qActive = Ok q ->
  (window_minutes q < 0)%Z ->
  Forall (fun f => exists st, stat f = Some st
                              /\ valid_time (mtime st) = true
                              /\ (mtime st <= now)%Z)
    (candidates (negb (str_eq qArchived "false")) entries) ->
  list_sessions qActive qArchived now (Dir entries)
  = (Ok200 {| count := 0; sessions := [] |}, []).
Proof.
  intros Hq Hneg Hall. unfold list_sessions. rewrite Hq. simpl readdirSync.
  cbv iota.
  assert (Hstat : Forall (fun f => stat f <> None)
                    (candidates (negb (str_eq qArchived "false")) entries)).
  { eapply Forall_impl; [| exact Hall]. intros f (st & -> & _). discriminate. }
  rewrite (scan_spec _ _ Hstat).
  assert (Hnone : filter (in_window (now - window_minutes q * 60 * 1000))
                    (candidates (negb (str_eq qArchived "false")) entries)
                  = []).
  { induction Hall as [| f files (st & Hst & Vm & Hm) _ IH]; simpl;
      [reflexivity |].
    inversion Hstat; subst.
    unfold in_window at 1. rewrite Hst.
    assert (E : time_lt (mtime st) (now - window_minutes q * 60 * 1000) = true).
    { unfold time_lt. rewrite Vm. simpl. apply Z.ltb_lt. lia. }
    rewrite E. simpl. apply IH. assumption. }
  rewrite Hnone. reflexivity.
Qed.

(** X13.  The exclusion of names ending in [.lock] or [.json] never removes
    an active log: every name ending in [.jsonl] is a candidate of the
    listing whatever the archival flag is, and with archived sessions left
    out the candidates are exactly these names. *)
Theorem active_logs_are_candidates (f : string) :
  (forall includeArchived,
     endsWith ".jsonl" f = true -> is_candidate includeArchived f = true)
  /\ is_candidate false f = endsWith ".jsonl" f.
Proof.
  assert (H : endsWith ".jsonl" f = true ->
              endsWith ".lock" f = false /\ endsWith ".json" f = false).
  { intro E. split;
      apply (endsWith_other_last ".jsonl" _ f); try discriminate; exact E. }
  unfold is_candidate. split.
  - intros includeArchived E. destruct (H E) as [-> ->]. rewrite E.
    reflexivity.
  - simpl. destruct (endsWith ".jsonl" f) eqn:E; [| reflexivity].
    destruct (H eq_refl) as [-> ->]. reflexivity.
Qed.

(** ** The statistics *)

Lemma tally_files_counts (today : Z) (files : list file) :
  forall t t',
    tally_files today files t = Ok t' ->
    tally_totalSessions t' = (tally_totalSessions t + List.length files)%nat
    /\ tally_archivedCount t'
       = (tally_archivedCount t
          + List.length (filter deleted_name files))%nat
    /\ tally_activeToday t'
       = (tally_activeToday t
          + List.length (filter (modified_since today) files))%nat.
Proof.
  induction files as [| f files IH]; simpl; intros t t' H.
  - injection H as <-. lia.
  - unfold statSync in H. destruct (stat f) as [st |] eqn:Es;
      simpl in H; [| discriminate H].
    destruct (IH _ _ H) as (H1 & H2 & H3). simpl in H1, H2, H3.
    unfold deleted_name at 1. unfold modified_since at 1. rewrite Es.
    rewrite H1, H2, H3.
    destruct (includes ".deleted" (name f)), (time_ge (mtime st) today);
      simpl; lia.
Qed.

Lemma filter_partition_length {A : Type} (p : A -> bool) (l : list A) :
  (List.length (filter p l) + List.length (filter (fun x => negb (p x)) l)
   = List.length l)%nat.
Proof.
  induction l as [| x l IH]; simpl; [reflexivity |].
  destruct (p x); simpl; lia.
Qed.

Lemma filter_length_bound {A : Type} (p : A -> bool) (l : list A) :
  (List.length (filter p l) <= List.length l)%nat.
Proof.
  induction l as [| x l IH]; simpl; [lia |]. destruct (p x); simpl; lia.
Qed.

(** X14.  Whenever the statistics answer, [totalSessions] is the number of
    counted files, [archivedCount] the number of those whose name contains
    [.deleted], and [activeSessions] the number of the others: the two
    parts add up to the total, [activeSessions] is never negative, and
    [activeToday], the number of counted files whose modification date is
    valid and not before midnight, never exceeds the total. *)
Theorem stats_counts (now today : Z) (entries : list file) (fl : fleet) :
  get_stats now today (Dir entries) = Ok200 fl ->
  let files := stats_files entries in
  totalSessions fl = List.length files
  /\ archivedCount fl = List.length (filter deleted_name files)
  /\ activeSessions fl
     = Z.of_nat (List.length (filter (fun f => negb (deleted_name f)) files))
  /\ (activeSessions fl + Z.of_nat (archivedCount fl)
      = Z.of_nat (totalSessions fl))%Z
  /\ activeToday fl = List.length (filter (modified_since today) files)
  /\ (activeToday fl <= totalSessions fl)%nat
  /\ timestamp fl = now.
Proof.
  intros H files. unfold get_stats in H. simpl in H.
  destruct (tally_files today (stats_files entries) tally0) as [t | e] eqn:E;
    [| discriminate H].
  injection H as <-. simpl.
  destruct (tally_files_counts _ _ _ _ E) as (H1 & H2 & H3). simpl in *.
  fold files in H1, H2, H3.
  pose proof (filter_partition_length deleted_name files) as Hp.
  pose proof (filter_length_bound (modified_since today) files) as Hb.
  rewrite H1, H2, H3. repeat split; lia.
Qed.

Lemma candidate_is_counted (includeArchived : bool) (f : string) :
  is_candidate includeArchived f = true -> is_stats_file f = true.
Proof.
  unfold is_candidate, is_stats_file. intro H.
  apply andb_prop in H. destruct H as [Hname Hrest].
  apply andb_prop in Hrest. destruct Hrest as [-> ->].
  rewrite !andb_true_r. apply includes_iff.
  apply orb_prop in Hname. destruct Hname as [H | H].
  - apply endsWith_iff in H. destruct H as (a & ->). exists a, "".
    rewrite append_empty_r. reflexivity.
  - apply andb_prop in H. destruct H as [_ H].
    apply includes_iff in H. destruct H as (a & b & ->).
    exists a, (".deleted" ++ b)%string. reflexivity.
Qed.

Lemma scan_length (cutoff : Z) (files : list file) :
  forall sessions console found console',
    scan cutoff files sessions console = (Ok found, console') ->
    (List.length found <= List.length sessions + List.length files)%nat.
Proof.
  induction files as [| f files IH]; simpl;
    intros sessions console found console' H.
  - injection H as <- _. lia.
  - destruct (statSync f) as [st | e]; [| discriminate H].
    destruct (time_lt (mtime st) cutoff).
    + apply IH in H. lia.
    + destruct (parseSessionFile f); apply IH in H;
        rewrite ?length_app in H; simpl in H; lia.
Qed.

Lemma filter_length_mono {A : Type} (p q : A -> bool) (l : list A) :
  (forall x, p x = true -> q x = true) ->
  (List.length (filter p l) <= List.length (filter q l))%nat.
Proof.
  intro H. induction l as [| x l IH]; simpl; [lia |].
  destruct (p x) eqn:Ep.
  - rewrite (H x Ep). simpl. lia.
  - destruct (q x); simpl; lia.
Qed.

(** X16.  The statistics count every file that the listing can show: for
    the same directory, whatever the window and the archival flag, the
    [count] of the listing is at most [totalSessions]. *)
Theorem listing_within_stats (qActive qArchived : value) (now now' today : Z)
  (entries : list file) (body : listing) (console : list string)
  (fl : fleet) :
  list_sessions qActive qArchived now (Dir entries) = (Ok200 body, console) ->
  get_stats now' today (Dir entries) = Ok200 fl ->
  (count body <= totalSessions fl)%nat.
Proof.
  intros Hlist Hstats.
  assert (Htotal : totalSessions fl = List.length (stats_files entries)).
  { unfold get_stats in Hstats. simpl in Hstats.
    destruct (tally_files today (stats_files entries) tally0) as [t | e] eqn:E;
      [| discriminate Hstats].
    injection Hstats as <-. simpl.
    destruct (tally_files_counts _ _ _ _ E) as (H1 & _). exact H1. }
  unfold list_sessions in Hlist.
  destruct (to_string qActive) as [q |]; [| discriminate Hlist].
  simpl in Hlist.
  destruct (scan _ _ [] []) as [[found | e] console'] eqn:Escan;
    [| discriminate Hlist].
  injection Hlist as <- _. simpl.
  rewrite (Permutation_length (sort_desc_perm found)).
  apply scan_length in Escan. simpl in Escan. rewrite Htotal.
  apply Nat.le_trans with (1 := Escan).
  unfold candidates, stats_files. apply filter_length_mono.
  intros f. apply candidate_is_counted.
Qed.

(** ** Dates that no [Date] can hold *)

(** X22.  A file whose modification or creation time is outside of the
    range of dates is never summarized.  In the listing such a file is not
    skipped by the window, however old its modification time is: it is
    handed to the summarizer, whose failure is logged, and no listed
    summary comes from it. *)
Theorem invalid_date_is_not_summarized (f : file) (st : stats) :
  stat f = Some st ->
  valid_time (mtime st) = false \/ valid_time (birthtime st) = false ->
  summarizable f = false
  /\ (valid_time (mtime st) = false ->
      forall cutoff rest sessions console,
        scan cutoff (f :: rest) sessions console
        = scan cutoff rest sessions (console ++ [name f])).
Proof.
  intros Hst Hbad.
  assert (Hs : summarizable f = false).
  { unfold summarizable. destruct (parseSessionFile f) as [s |] eqn:Ep;
      [| reflexivity].
    destruct (parseSessionFile_dates _ _ Ep) as (st' & Hst' & Vm & Vb & _).
    assert (st' = st) by congruence. subst st'.
    destruct Hbad; congruence. }
  split; [exact Hs |].
  intros Vm cutoff rest sessions console. simpl. unfold statSync.
  rewrite Hst. unfold time_lt. rewrite Vm. simpl.
  unfold summarizable in Hs. destruct (parseSessionFile f); [discriminate Hs |].
  reflexivity.
Qed.

(** ** What [get session] answers with *)

Lemma extractSessionId_of_canonical (id suffix : string) :
  canonical_id id -> extractSessionId (id ++ ".jsonl" ++ suffix) = id.
Proof.
  intros [Hne Hall]. unfold extractSessionId.
  rewrite (span_id_app id (".jsonl" ++ suffix) Hall); [| reflexivity].
  assert (Hp : String.prefix ".jsonl" (".jsonl" ++ suffix) = true)
    by (apply prefix_iff; exists suffix; reflexivity).
  rewrite Hp. destruct id; [contradiction Hne; reflexivity |]. reflexivity.
Qed.

Lemma flagged_status (f : file) (s : summary) :
  parseSessionFile f = Ok s ->
  includes ".deleted" (name f) = true ->
  isDeleted s = true /\ status s = archived.
Proof.
  intros H Hflag. apply parseSessionFile_inv in H.
  destruct H as (st & ls & ms & a & _ & _ & _ & _ & _ & _ & _ & Hst
                 & _ & _ & Hdel & _).
  rewrite Hdel, Hflag in *. split; [reflexivity |].
  unfold resolve_status in Hst. unbind Hst as positive Hpos.
  injection Hst as <-. rewrite andb_false_r. reflexivity.
Qed.

Lemma get_session_source (sessionId : string) (entries : list file)
  (s : summary) :
  get_session sessionId (Dir entries) = Ok200 s ->
  exists f,
    In f entries /\ parseSessionFile f = Ok s
    /\ ((existsSync (Dir entries) (sessionId ++ ".jsonl") = true
         /\ name f = (sessionId ++ ".jsonl")%string)
        \/ (existsSync (Dir entries) (sessionId ++ ".jsonl") = false
            /\ archived_variant sessionId f = true)).
Proof.
  unfold get_session, get_session_at. intro H.
  change (exists_at (lookup_file (Dir entries)) (sessionId ++ ".jsonl"))
    with (existsSync (Dir entries) (sessionId ++ ".jsonl")) in H.
  destruct (existsSync (Dir entries) (sessionId ++ ".jsonl")) eqn:He.
  - unfold existsSync, exists_at in He. unfold parse_at in H.
    destruct (lookup_file (Dir entries) (sessionId ++ ".jsonl")) as [g |] eqn:Eg;
      [| discriminate He].
    simpl in Eg. apply find_some in Eg. destruct Eg as [Hin Hname].
    apply String.eqb_eq in Hname.
    destruct (parseSessionFile g) as [s' | e] eqn:Ep; simpl in H;
      [| discriminate H].
    injection H as <-. exists g. auto.
  - simpl in H.
    destruct (find (fun f => startsWith (sessionId ++ ".jsonl.deleted") (name f))
                entries) as [v |] eqn:Ev; [| discriminate H].
    destruct (parseSessionFile v) as [s' | e] eqn:Ep; simpl in H;
      [| discriminate H].
    injection H as <-. apply find_some in Ev.
    exists v. unfold archived_variant. tauto.
Qed.

(** X17.  For a canonical identifier, which holds no path separator, [get
    session] never answers with the summary of another log: the summary
    comes from an entry of the sessions directory whose name starts with
    [<id>.jsonl], and the [sessionId] of the summary is the identifier that
    was asked for. *)
Theorem get_session_is_sound (id : string) (entries : list file)
  (s : summary) :
  canonical_id id ->
  get_session id (Dir entries) = Ok200 s ->
  (exists f, In f entries /\ parseSessionFile f = Ok s
             /\ startsWith (id ++ ".jsonl") (name f) = true)
  /\ sessionId s = id.
Proof.
  intros Hid H. apply get_session_source in H.
  destruct H as (f & Hin & Hp & Hname).
  assert (Hstart : exists r, name f = (id ++ ".jsonl" ++ r)%string).
  { destruct Hname as [[_ ->] | [_ Hv]].
    - exists "". rewrite append_empty_r. reflexivity.
    - unfold archived_variant, startsWith in Hv. apply prefix_iff in Hv.
      destruct Hv as (r & ->). exists (".deleted" ++ r)%string.
      rewrite append_assoc. reflexivity. }
  destruct Hstart as (r & Hr). split.
  - exists f. split; [exact Hin |]. split; [exact Hp |].
    unfold startsWith. apply prefix_iff. exists r.
    rewrite Hr, append_assoc. reflexivity.
  - destruct (parseSessionFile_fields _ _ Hp) as (-> & _).
    rewrite Hr. apply extractSessionId_of_canonical, Hid.
Qed.

(** X18.  When no active log exists for the identifier, a summary that
    [get session] answers with is always flagged deleted and has the status
    [archived]. *)
Theorem fallback_summary_is_archived (id : string) (entries : list file)
  (s : summary) :
  existsSync (Dir entries) (id ++ ".jsonl") = false ->
  get_session id (Dir entries) = Ok200 s ->
  isDeleted s = true /\ status s = archived.
Proof.
  intros Hno H. apply get_session_source in H.
  destruct H as (f & _ & Hp & [[He _] | [_ Hv]]); [congruence |].
  apply (flagged_status _ _ Hp).
  unfold archived_variant, startsWith in Hv. apply prefix_iff in Hv.
  destruct Hv as (r & ->). apply includes_iff.
  exists (id ++ ".jsonl")%string, r. rewrite !append_assoc. reflexivity.
Qed.

(** X19.  A session that the directory holds as an active log under a
    canonical identifier can be fetched by the [sessionId] of its summary:
    the summary carries the identifier, and [get session] of it answers
    with the same summary. *)
Theorem listed_session_can_be_fetched (id : string) (entries : list file)
  (f : file) (s : summary) :
  NoDup (map name entries) ->
  canonical_id id ->
  In f entries ->
  name f = (id ++ ".jsonl")%string ->
  parseSessionFile f = Ok s ->
  sessionId s = id /\ get_session (sessionId s) (Dir entries) = Ok200 s.
Proof.
  intros Hnd Hid Hin Hname Hp.
  destruct (parseSessionFile_fields _ _ Hp) as (Hsid & _ & _ & st & Hst & _).
  assert (E : sessionId s = id).
  { rewrite Hsid, Hname. rewrite <- (append_empty_r ".jsonl").
    apply extractSessionId_of_canonical, Hid. }
  split; [exact E |]. rewrite E.
  unfold get_session, get_session_at, exists_at, parse_at. simpl.
  rewrite <- Hname, (find_by_name _ _ Hnd Hin), Hst, Hp. reflexivity.
Qed.

(** ** The dashboard client *)

(** X20.  [getTimeAgo] rounds the age of a date down to whole minutes,
    hours or days: an age below one minute, a date in the future included,
    reads [just now]; otherwise the number shown is at least 1, at most 59
    for minutes and 23 for hours, and it is the number of whole units that
    fit in the age. *)
Theorem time_ago_units (date now : Z) :
  let age := (now - date)%Z in
  ((age < 60000)%Z -> getTimeAgo date now = "just now")
  /\ ((60000 <= age < 3600000)%Z ->
      exists n, getTimeAgo date now = (Z_toString n ++ "m ago")%string
                /\ (1 <= n <= 59)%Z
                /\ (n * 60000 <= age < (n + 1) * 60000)%Z)
  /\ ((3600000 <= age < 86400000)%Z ->
      exists n, getTimeAgo date now = (Z_toString n ++ "h ago")%string
                /\ (1 <= n <= 23)%Z
                /\ (n * 3600000 <= age < (n + 1) * 3600000)%Z)
  /\ ((86400000 <= age)%Z ->
      exists n, getTimeAgo date now = (Z_toString n ++ "d ago")%string
                /\ (1 <= n)%Z
                /\ (n * 86400000 <= age < (n + 1) * 86400000)%Z).
Proof.
  intro age. unfold getTimeAgo. fold age.
  pose proof (Z.div_mod age 60000 ltac:(lia)) as Hm.
  pose proof (Z.mod_pos_bound age 60000 ltac:(lia)) as Hmb.
  set (m := (age / 60000)%Z) in *.
  pose proof (Z.div_mod m 60 ltac:(lia)) as Hh.
  pose proof (Z.mod_pos_bound m 60 ltac:(lia)) as Hhb.
  pose proof (Z.div_mod m 1440 ltac:(lia)) as Hd.
  pose proof (Z.mod_pos_bound m 1440 ltac:(lia)) as Hdb.
  repeat split.
  - intro H. assert (E : (m <? 1)%Z = true) by (apply Z.ltb_lt; lia).
    rewrite E. reflexivity.
  - intro H. exists m.
    assert (E1 : (m <? 1)%Z = false) by (apply Z.ltb_ge; lia).
    assert (E2 : (m <? 60)%Z = true) by (apply Z.ltb_lt; lia).
    rewrite E1, E2. repeat split; lia.
  - intro H. exists (m / 60)%Z.
    assert (E1 : (m <? 1)%Z = false) by (apply Z.ltb_ge; lia).
    assert (E2 : (m <? 60)%Z = false) by (apply Z.ltb_ge; lia).
    assert (E3 : (m <? 1440)%Z = true) by (apply Z.ltb_lt; lia).
    rewrite E1, E2, E3. repeat split; lia.
  - intro H. exists (m / 1440)%Z.
    assert (E1 : (m <? 1)%Z = false) by (apply Z.ltb_ge; lia).
    assert (E2 : (m <? 60)%Z = false) by (apply Z.ltb_ge; lia).
    assert (E3 : (m <? 1440)%Z = false) by (apply Z.ltb_ge; lia).
    rewrite E1, E2, E3. repeat split; lia.
Qed.

Lemma maxTokens_bounds (tokens : list Q) :
  (1 <= maxTokens tokens)%Q
  /\ forall t, In t tokens -> (t <= maxTokens tokens)%Q.
Proof.
  unfold maxTokens. induction tokens as [| x tokens [IH1 IHall]]; simpl.
  - split; [apply Qle_refl | intros t []].
  - split.
    + apply Qle_trans with (1 := IH1). apply Q.le_max_r.
    + intros t [<- | Ht]; [apply Q.le_max_l |].
      apply Qle_trans with (1 := IHall t Ht). apply Q.le_max_r.
Qed.

(** X21.  The bars of the chart never leave their track: the divisor is at
    least 1, so the width is defined even when every session has zero
    tokens, and for a session of the list whose token count is not negative
    the width is between 0 and 100 percent. *)
Theorem bar_width_in_range (t : Q) (tokens : list Q) :
  In t tokens -> (0 <= t)%Q ->
  (1 <= maxTokens tokens)%Q
  /\ (0 <= widthPercent t tokens)%Q /\ (widthPercent t tokens <= 100)%Q.
Proof.
  intros Hin Hpos. destruct (maxTokens_bounds tokens) as [H1 Hall].
  specialize (Hall t Hin). split; [exact H1 |].
  assert (Hm : (0 < maxTokens tokens)%Q)
    by (apply Qlt_le_trans with (2 := H1); reflexivity).
  unfold widthPercent. split.
  - apply Qmult_le_0_compat; [| discriminate].
    apply Qle_shift_div_l; [exact Hm |]. rewrite Qmult_0_l. exact Hpos.
  - setoid_replace 100%Q with (1 * 100)%Q at 2 by reflexivity.
    apply Qmult_le_compat_r; [| discriminate].
    apply Qle_shift_div_r; [exact Hm |]. rewrite Qmult_1_l. exact Hall.
Qed.

End Summarizer.

(** ** The totals as running sums of doubles *)

Section DoubleTotals.

Variable Number_toString : float -> string.
Variable String_toNumber : string -> float.

Lemma double_get_Ok (k : string) (v w : value64) :
  get64 k v = Ok w -> nullish64 v = false /\ w = opt_get64 k v.
Proof.
  unfold get64. destruct (nullish64 v); intro H; [discriminate H |].
  inversion H; auto.
Qed.

Lemma double_opt_get_falsy (k : string) (v : value64) :
  truthy64 v = false -> opt_get64 k v = FUndef.
Proof. destruct v; simpl; intro H; congruence. Qed.

Lemma double_is_message_Ok (l : value64) (b : bool) :
  is_message64 l = Ok b -> nullish64 l = false /\ b = truthy64 (payload64 l).
Proof.
  unfold is_message64, payload64. intro H.
  apply bind_Ok in H. destruct H as (t & Ht & H).
  apply double_get_Ok in Ht. destruct Ht as [Hl ->]. split; [exact Hl |].
  destruct (str_eq64 (opt_get64 "type" l) "message").
  - apply bind_Ok in H. destruct H as (m & Hm & H).
    apply double_get_Ok in Hm. destruct Hm as [_ ->]. congruence.
  - simpl. congruence.
Qed.

Lemma double_filter_is_message (lines ms : list value64) :
  filter_m64 is_message64 lines = Ok ms ->
  ms = filter (fun l => truthy64 (payload64 l)) lines.
Proof.
  revert ms. induction lines as [| l lines IH]; simpl; intros ms H.
  - inversion H. reflexivity.
  - apply bind_Ok in H. destruct H as (b & Hb & H).
    apply bind_Ok in H. destruct H as (r & Hr & H).
    inversion H; subst ms.
    apply double_is_message_Ok in Hb. destruct Hb as [_ ->].
    rewrite (IH _ Hr). destruct (truthy64 (payload64 l)); reflexivity.
Qed.

Lemma double_payload_truthy (l : value64) :
  truthy64 (payload64 l) = true ->
  nullish64 l = false /\ payload64 l = opt_get64 "message" l.
Proof.
  unfold payload64.
  destruct (str_eq64 (opt_get64 "type" l) "message") eqn:E; simpl; intro H.
  - split; [| reflexivity]. destruct l; simpl in *; congruence.
  - discriminate H.
Qed.

(** A field without usage is absent. *)
Lemma double_usage_of_cost (l : value64) :
  truthy64 (cost_field64 l) = true -> truthy64 (usage_of64 l) = true.
Proof.
  unfold cost_field64.
  destruct (truthy64 (usage_of64 l)) eqn:E; [reflexivity |].
  rewrite (double_opt_get_falsy "cost" _ E). simpl. congruence.
Qed.

Lemma double_payload_of_usage (l : value64) :
  truthy64 (usage_of64 l) = true -> truthy64 (payload64 l) = true.
Proof.
  unfold usage_of64. destruct (truthy64 (payload64 l)) eqn:E; [reflexivity |].
  rewrite (double_opt_get_falsy "usage" _ E). simpl. congruence.
Qed.

(** One turn of the loop on a message line whose fields are numbers. *)
Lemma double_step_totals (a a' : acc64) (l : value64) (t c : float) :
  step64 Number_toString String_toNumber a l = Ok a' ->
  truthy64 (payload64 l) = true ->
  number_or_absent64 (token_field64 l) ->
  number_or_absent64 (cost_field64 l) ->
  acc64_totalTokens a = FNum t ->
  acc64_totalCost a = FNum c ->
  acc64_totalTokens a'
  = FNum (if truthy64 (usage_of64 l)
          then PrimFloat.add t (present_or_zero (token_field64 l)) else t)
  /\ acc64_totalCost a'
     = FNum (if truthy64 (cost_field64 l)
             then PrimFloat.add c (present_or_zero (cost_field64 l)) else c).
Proof.
  intros H Hp Ht Hc Et Ec.
  destruct (double_payload_truthy l Hp) as (Hl & Hm).
  unfold step64 in H. unfold get64 at 1 in H. rewrite Hl in H. simpl in H.
  apply bind_Ok in H. destruct H as (tc & Htc & H).
  inversion H; subst a'; clear H. simpl.
  pose proof (double_usage_of_cost l) as Huc.
  unfold token_field64, cost_field64, usage_of64 in *. rewrite Hm in *.
  destruct (truthy64 (opt_get64 "usage" (opt_get64 "message" l))) eqn:Hu.
  - apply bind_Ok in Htc. destruct Htc as (tt & Htt & Htc).
    apply bind_Ok in Htc. destruct Htc as (tokens & Htokens & Htc).
    apply bind_Ok in Htc. destruct Htc as (cc & Hcc & Htc).
    apply bind_Ok in Htc. destruct Htc as (cost & Hcost & Htc).
    inversion Htc; subst tc; clear Htc. simpl.
    apply double_get_Ok in Htt, Hcc.
    destruct Htt as [_ ->]. destruct Hcc as [_ ->].
    rewrite Et in Htokens. rewrite Ec in Hcost. split.
    + destruct (opt_get64 "totalTokens"
                  (opt_get64 "usage" (opt_get64 "message" l)))
        as [| | b | x | s | el | ps]; try contradiction;
        simpl in Htokens |- *.
      * injection Htokens as <-. reflexivity.
      * injection Htokens as <-. reflexivity.
      * destruct (PrimFloat.eqb x 0 || PrimFloat.is_nan x);
          simpl in Htokens; injection Htokens as <-; reflexivity.
    + destruct (opt_get64 "total"
                  (opt_get64 "cost"
                     (opt_get64 "usage" (opt_get64 "message" l))))
        as [| | b | x | s | el | ps]; try contradiction;
        simpl in Hcost |- *.
      * injection Hcost as <-. reflexivity.
      * injection Hcost as <-. reflexivity.
      * destruct (PrimFloat.eqb x 0 || PrimFloat.is_nan x);
          simpl in Hcost; injection Hcost as <-; reflexivity.
  - inversion Htc; subst tc; clear Htc. simpl. rewrite Et, Ec.
    split; [reflexivity |].
    destruct (truthy64
                (opt_get64 "total"
                   (opt_get64 "cost"
                      (opt_get64 "usage" (opt_get64 "message" l)))))
      eqn:E; [| reflexivity].
    specialize (Huc eq_refl). discriminate Huc.
Qed.

Lemma double_fold_totals (ms : list value64) :
  Forall (fun l => truthy64 (payload64 l) = true) ms ->
  well_typed_usage64 ms ->
  forall a a' t c,
    fold_m64 (step64 Number_toString String_toNumber) ms a = Ok a' ->
    acc64_totalTokens a = FNum t ->
    acc64_totalCost a = FNum c ->
    acc64_totalTokens a' = FNum (fold_left PrimFloat.add (token_terms ms) t)
    /\ acc64_totalCost a' = FNum (fold_left PrimFloat.add (cost_terms ms) c).
Proof.
  induction 1 as [| l ms Hl _ IH]; intros Hty a a' t c H Et Ec.
  - simpl in H. injection H as <-. auto.
  - simpl in H. apply bind_Ok in H. destruct H as (a1 & Ha1 & H).
    destruct (Hty l (or_introl eq_refl)) as [Htl Hcl].
    destruct (double_step_totals _ _ _ _ _ Ha1 Hl Htl Hcl Et Ec) as [Et1 Ec1].
    destruct (IH (fun x Hx => Hty x (or_intror Hx)) _ _ _ _ H Et1 Ec1)
      as [-> ->].
    unfold token_terms, cost_terms. simpl.
    destruct (truthy64 (usage_of64 l)), (truthy64 (cost_field64 l)); simpl;
      split; reflexivity.
Qed.

Lemma double_filter_filter {A : Type} (p q : A -> bool) (l : list A) :
  (forall x, p x = true -> q x = true) ->
  filter p (filter q l) = filter p l.
Proof.
  intro H. induction l as [| x l IH]; simpl; [reflexivity |].
  destruct (q x) eqn:Eq; simpl.
  - rewrite IH. reflexivity.
  - destruct (p x) eqn:Ep; [| exact IH].
    rewrite (H x Ep) in Eq. discriminate Eq.
Qed.

(** The terms of the message lines are the terms of the log. *)
Lemma double_terms_of_messagelines (lines : list value64) :
  token_terms (filter (fun l => truthy64 (payload64 l)) lines)
  = token_terms lines
  /\ cost_terms (filter (fun l => truthy64 (payload64 l)) lines)
     = cost_terms lines.
Proof.
  unfold token_terms, cost_terms. split; f_equal; apply double_filter_filter.
  - exact double_payload_of_usage.
  - intros l Hl. apply double_payload_of_usage, double_usage_of_cost, Hl.
Qed.

(** C3, as amended.  When every token count and every cost total of the log
    is a number or is absent, [totalTokens] is the sum of
    [usage.totalTokens] and [totalCost] the sum of [usage.cost.total] over
    the [message] events that carry a non-null payload.  An event without
    usage adds nothing, an absent token count in a usage object counts for
    zero, and an absent cost adds nothing, so that a usage object with only
    one of the fields contributes that field alone.  Both sums are taken in
    double precision, from zero and in the order of the log, every addition
    rounded to the nearest double. *)
Theorem totals_are_running_sums (lines ms : list value64) (a : acc64) :
  filter_m64 is_message64 lines = Ok ms ->
  accumulate64 Number_toString String_toNumber ms = Ok a ->
  well_typed_usage64 lines ->
  acc64_totalTokens a = FNum (running_sum (token_terms lines))
  /\ acc64_totalCost a = FNum (running_sum (cost_terms lines)).
Proof.
  intros Hms Ha Hty. apply double_filter_is_message in Hms. subst ms.
  unfold accumulate64 in Ha.
  destruct (double_terms_of_messagelines lines) as [<- <-].
  apply (double_fold_totals _) with (a := acc64_zero) (a' := a);
    try reflexivity; try exact Ha.
  - clear. induction lines as [| l lines IH]; simpl; [constructor |].
    destruct (truthy64 (payload64 l)) eqn:E; [constructor |]; assumption.
  - intros l Hl. apply filter_In in Hl. apply Hty. exact (proj1 Hl).
Qed.

End DoubleTotals.

(** ** The theorems on the sample logs *)

Ltac each_line H :=
  simpl in H;
  repeat (destruct H as [<- | H]; [simpl; auto |]);
  try contradiction.

(** C1: the running log has a positive total and the status of its last
    stop reason. *)
Lemma status_of_active_log_witness :
  exists s,
    parseSessionFile unused_toString unused_toNumber running_log = Ok s
    /\ includes ".deleted" (name running_log) = false
    /\ totalTokens s = VNum 150
    /\ status s = running.
Proof.
  eexists. split; [reflexivity |]. split; [reflexivity |].
  split; [reflexivity |].
  destruct (status_of_active_log unused_toString unused_toNumber running_log
              _ eq_refl eq_refl) as (_ & Hnum & _).
  exact (Hnum 150%Q eq_refl).
Defined.

(** C1 as stated fails on the log whose only message carries a usage field
    with no tokens and the stop reason [stop]: a message event with usage
    exists and the last stop reason gives [completed], yet the status is
    [idle].  This holds whatever the coercions of the runtime are. *)
Lemma status_idle_despite_usage :
  ~ (exists Number_toString String_toNumber,
       forall f s,
         parseSessionFile Number_toString String_toNumber f = Ok s ->
         includes ".deleted" (name f) = false ->
         status s = if has_usage_message (lines_of f)
                    then last_stop_status (lines_of f) else idle).
Proof.
  intros (nts & stn & H).
  specialize (H zero_usage_log _ eq_refl eq_refl).
  vm_compute in H. discriminate H.
Qed.

(** Of the three logs of the mixed directory, all inside the default
    window, the two that can be summarized are listed and the corrupt one
    is logged. *)
Lemma scanner_isolation_witness :
  exists body,
    list_sessions unused_toString unused_toNumber VUndef VUndef 2000
      (Dir mixed_directory)
    = (Ok200 body, ["0c3d.jsonl"])
    /\ count body = 2%nat.
Proof.
  destruct (scanner_isolation unused_toString unused_toNumber VUndef VUndef
              "undefined" 2000 mixed_directory eq_refl)
    as (body & Hlist & _ & _ & _ & Hcount).
  - repeat constructor; discriminate.
  - exists body. split; [exact Hlist |].
    apply (Hcount corrupt_log
             [running_log; log_file "0e5f.jsonl" 1200 partial_usage_events]).
    + apply perm_swap.
    + reflexivity.
    + repeat constructor.
    + reflexivity.
Defined.

(** C2: the directory holds two logs that can be summarized and one entry
    whose metadata cannot be read; the listing answers with the server
    error instead of two summaries. *)
Lemma listing_fails_on_unreadable_metadata_witness :
  List.length (filter (summarizable unused_toString unused_toNumber)
                 dangling_directory) = 2%nat
  /\ summarizable unused_toString unused_toNumber dangling_log = false
  /\ exists console,
       list_sessions unused_toString unused_toNumber VUndef VUndef 2000
         (Dir dangling_directory) = (Error500, console).
Proof.
  split; [reflexivity |]. split; [reflexivity |].
  apply (listing_fails_on_unreadable_metadata unused_toString unused_toNumber
           VUndef VUndef "undefined" 2000 dangling_directory eq_refl).
  exists dangling_log. split; [| reflexivity].
  simpl. right. left. reflexivity.
Defined.

(** C3: the costs of one tenth and of two tenths add up to the double
    after three tenths, and the token counts to one hundred and fifty. *)
Lemma totals_are_running_sums_witness :
  exists ms a,
    filter_m64 is_message64 tenths = Ok ms
    /\ accumulate64 unused_toString64 unused_toNumber64 ms
       = Ok a
    /\ acc64_totalTokens a = FNum 150
    /\ acc64_totalCost a = FNum 0.30000000000000004.
Proof.
  eexists. eexists. split; [reflexivity |]. split; [reflexivity |].
  apply (totals_are_running_sums unused_toString64
           unused_toNumber64 tenths _ _ eq_refl eq_refl).
  intros l Hl. simpl in Hl.
  repeat (destruct Hl as [<- | Hl]; [simpl; auto |]). contradiction.
Defined.

(** C3 as stated fails on the same log: the total cost is not the sum of
    one tenth and two tenths, which no double holds.  This is so whatever
    the coercions of the runtime are. *)
Lemma totals_are_not_exact_sums :
  ~ (exists Number_toString String_toNumber,
       forall lines ms a,
         filter_m64 is_message64 lines = Ok ms ->
         accumulate64 Number_toString String_toNumber ms = Ok a ->
         well_typed_usage64 lines ->
         sums_exactly (acc64_totalTokens a)
           (token_terms lines)
         /\ sums_exactly (acc64_totalCost a)
              (cost_terms lines)).
Proof.
  intros (nts & stn & H).
  destruct (H tenths _ _ eq_refl eq_refl) as [_ Hc].
  { intros l Hl. simpl in Hl.
    repeat (destruct Hl as [<- | Hl]; [simpl; auto |]). contradiction. }
  destruct (Hc _ eq_refl) as (x & q & Hx & Hq & Heq).
  injection Hx as <-. vm_compute in Hq. injection Hq as <-.
  apply Qeq_bool_iff in Heq. vm_compute in Heq. discriminate Heq.
Qed.

(** C4: the archived log has tokens and a stop reason, and its status is
    [archived]. *)
Lemma status_archived_iff_flagged_witness :
  exists s,
    parseSessionFile unused_toString unused_toNumber archived_log = Ok s
    /\ status s = archived.
Proof.
  eexists. split; [reflexivity |].
  apply (status_archived_iff_flagged unused_toString unused_toNumber
           archived_log _ eq_refl).
  reflexivity.
Defined.

(** C5: the snapshot stands before the message that names another model,
    and its [modelId] is the model of the summary. *)
Lemma model_snapshot_overrides_witness :
  exists s,
    parseSessionFile unused_toString unused_toNumber snapshot_first_log = Ok s
    /\ model s = VStr "model-b".
Proof.
  eexists. split; [reflexivity |].
  apply (model_snapshot_overrides unused_toString unused_toNumber
           snapshot_first_log _ [] [model_message] snapshot eq_refl eq_refl).
  - intros x [].
  - reflexivity.
  - reflexivity.
Defined.

(** C5 as stated fails on a log with two snapshot events, the first without
    a [modelId]: the second one carries [model-b], and the model of the
    summary is the [model-a] of the message event. *)
Lemma model_snapshot_not_always_winning :
  ~ (exists Number_toString String_toNumber,
       forall f s e,
         parseSessionFile Number_toString String_toNumber f = Ok s ->
         In e (lines_of f) ->
         str_eq (opt_get "type" e) "custom" = true ->
         tagged_model_snapshot e = true ->
         model s = modelId_of e).
Proof.
  intros (nts & stn & H).
  specialize (H (two_snapshots_log empty_snapshot) _ snapshot eq_refl).
  vm_compute in H.
  specialize (H (or_intror (or_intror (or_introl eq_refl))) eq_refl eq_refl).
  discriminate H.
Qed.

(** C6: the session key of the labelled sub-agent log contains [subagent]
    and a message mentions the task, yet the label is the explicit one. *)
Lemma label_priority_witness :
  exists s,
    parseSessionFile unused_toString unused_toNumber labelled_subagent_log
    = Ok s
    /\ includes "subagent" (sessionKey s) = true
    /\ label s = VStr "Refactor Task".
Proof.
  eexists. split; [reflexivity |]. split; [reflexivity |].
  apply (proj1 (label_priority unused_toString unused_toNumber
                  labelled_subagent_log _ eq_refl)
           [session_event; task_message] label_event []).
  - reflexivity.
  - intros x Hx. each_line Hx.
  - reflexivity.
Defined.

(** C7: in the store with a subdirectory, the identifier [sub/0e5f] is
    answered with the summary of the log in the subdirectory, the
    identifier [0a1b] with the summary of its archived variant, and the
    identifier [0b2c] with the not-found answer. *)
Lemma get_session_resolution_witness :
  exists s1 s2,
    get_session_at unused_toString unused_toNumber nested_paths "sub/0e5f"
      (Dir archive_only_directory) = Ok200 s1
    /\ sessionId s1 = "0e5f" /\ totalTokens s1 = VNum 150
    /\ get_session_at unused_toString unused_toNumber nested_paths "0a1b"
         (Dir archive_only_directory) = Ok200 s2
    /\ sessionId s2 = "0a1b" /\ status s2 = archived
    /\ get_session_at unused_toString unused_toNumber nested_paths "0b2c"
         (Dir archive_only_directory) = NotFound404.
Proof.
  pose proof (get_session_resolution unused_toString unused_toNumber
                nested_paths "sub/0e5f" archive_only_directory) as H1.
  pose proof (get_session_resolution unused_toString unused_toNumber
                nested_paths "0a1b" archive_only_directory) as H2.
  pose proof (get_session_resolution unused_toString unused_toNumber
                nested_paths "0b2c" archive_only_directory) as H3.
  cbv zeta in H1, H2, H3.
  destruct H1 as (Hactive & _ & _).
  destruct (Hactive nested_log) as [Hok1 _];
    [split; [reflexivity | discriminate] |].
  destruct H2 as (_ & Hfallback & _).
  destruct Hfallback as [Hvariant _].
  { intros f [Hpath _]. discriminate Hpath. }
  destruct (Hvariant [] archived_log [] eq_refl) as [Hok2 _];
    [intros x [] | reflexivity |].
  destruct H3 as (_ & Hnone & _).
  destruct Hnone as [_ Hnone].
  { intros f [Hpath _]. discriminate Hpath. }
  eexists. eexists.
  split; [exact (Hok1 _ eq_refl) |].
  split; [reflexivity |]. split; [reflexivity |].
  split; [exact (Hok2 _ eq_refl) |].
  split; [reflexivity |]. split; [reflexivity |].
  apply Hnone. intros x Hx. each_line Hx.
Defined.

(** C8: the totals of the log with partial usage objects are not
    negative. *)
Lemma totals_never_decrease_witness :
  exists s t c,
    parseSessionFile unused_toString unused_toNumber partial_usage_log = Ok s
    /\ totalTokens s = VNum t /\ totalCost s = VNum c
    /\ (0 <= t)%Q /\ (0 <= c)%Q.
Proof.
  eexists.
  destruct (totals_never_decrease unused_toString unused_toNumber
              partial_usage_log _ eq_refl)
    as [(t & c & Ht & Hc & Pt & Pc) _].
  - intros l Hl. each_line Hl; split; solve [exact I | discriminate].
  - exists t, c. split; [reflexivity |]. repeat split; assumption.
Defined.

(** C8 as stated fails on the log whose message reports minus five tokens
    and a cost of minus one: both totals of its summary are negative. *)
Lemma totals_negative_on_negative_usage :
  ~ (exists Number_toString String_toNumber,
       forall f s,
         parseSessionFile Number_toString String_toNumber f = Ok s ->
         ~ is_negative (totalTokens s) /\ ~ is_negative (totalCost s)).
Proof.
  intros (nts & stn & H).
  destruct (H negative_usage_log _ eq_refl) as [Htokens _].
  apply Htokens. reflexivity.
Qed.

(** C9: a word is no integer, and the listing is the one of the default
    window. *)
Lemma window_falls_back_to_default_witness :
  window_minutes "soon" = 1440%Z
  /\ list_sessions unused_toString unused_toNumber (VStr "soon") VUndef 2000
       (Dir mixed_directory)
     = list_sessions unused_toString unused_toNumber VUndef VUndef 2000
         (Dir mixed_directory).
Proof.
  apply (window_falls_back_to_default unused_toString unused_toNumber "soon").
  right. reflexivity.
Defined.

(** C10: the first tagged event has neither the [custom] type nor a
    [modelId]; the model stays the one of the message event although the
    last event is a snapshot with a [modelId]. *)
Lemma model_snapshot_first_only_witness :
  exists s,
    parseSessionFile unused_toString unused_toNumber
      (two_snapshots_log bare_snapshot) = Ok s
    /\ model s = VStr "model-a".
Proof.
  eexists. split; [reflexivity |].
  apply (model_snapshot_first_only unused_toString unused_toNumber
           (two_snapshots_log bare_snapshot) _ []
           [model_message; snapshot] bare_snapshot eq_refl eq_refl).
  - intros x [].
  - reflexivity.
Defined.

(** ** The further properties on the sample logs *)

(** X1: the archived variant of session [0a1b]. *)
Lemma extractSessionId_round_trip_witness :
  extractSessionId ("0a1b" ++ ".jsonl" ++ ".deleted.2026-02-11") = "0a1b".
Proof.
  apply (extractSessionId_round_trip "0a1b" ".deleted.2026-02-11").
  split; [discriminate | reflexivity].
Defined.

(** X3: the second line of the corrupt log decodes to [null]. *)
Lemma null_line_throws_witness :
  exists e,
    parseSessionFile unused_toString unused_toNumber corrupt_log = Throw e.
Proof.
  apply (null_line_throws unused_toString unused_toNumber corrupt_log).
  simpl. right. left. reflexivity.
Defined.

(** X5: the running log names no model anywhere. *)
Lemma model_without_snapshot_witness :
  exists s,
    parseSessionFile unused_toString unused_toNumber running_log = Ok s
    /\ model s = VStr "unknown".
Proof.
  eexists. split; [reflexivity |].
  apply (model_without_snapshot unused_toString unused_toNumber running_log
           _ eq_refl).
  - intros l Hl. each_line Hl.
  - reflexivity.
Defined.

(** X6: the archived log that only holds a note. *)
Lemma summary_without_messages_witness :
  exists s,
    parseSessionFile unused_toString unused_toNumber notes_only_log = Ok s
    /\ messageCount s = 0%nat
    /\ totalTokens s = VNum 0 /\ totalCost s = VNum 0
    /\ status s = archived.
Proof.
  eexists. split; [reflexivity |].
  apply (summary_without_messages unused_toString unused_toNumber
           notes_only_log _ eq_refl eq_refl).
Defined.

(** X7: the key of the labelled sub-agent log comes from its session
    event. *)
Lemma session_key_from_first_session_event_witness :
  exists s,
    parseSessionFile unused_toString unused_toNumber labelled_subagent_log
    = Ok s
    /\ sessionKey s = "agent:main:subagent:42".
Proof.
  eexists. split; [reflexivity |].
  destruct (session_key_from_first_session_event unused_toString
              unused_toNumber labelled_subagent_log _ eq_refl) as [Hfirst _].
  destruct (Hfirst [] session_event [task_message; label_event] eq_refl)
    as [Hid _].
  - intros x [].
  - reflexivity.
  - apply (Hid "subagent:42" eq_refl). discriminate.
Defined.

(** X8: the log with a blank and a truncated line. *)
Lemma empty_log_defaults_witness :
  exists s,
    parseSessionFile unused_toString unused_toNumber blank_log = Ok s
    /\ sessionId s = "0a1b" /\ label s = VStr "Main" /\ status s = idle
    /\ messageCount s = 0%nat.
Proof.
  eexists. split.
  - apply (empty_log_defaults unused_toString unused_toNumber blank_log
             {| mtime := 1000; birthtime := 900 |} [Blank; Malformed]);
      reflexivity.
  - repeat split.
Defined.

(** X9: the label of the task text of the samples. *)
Lemma extracted_label_shape_witness :
  match_label "Your Task label: indexer" = Some "indexer"
  /\ occurs_in (trim "indexer") "Your Task label: indexer".
Proof.
  split; [reflexivity |].
  apply (extracted_label_shape "Your Task label: indexer" "indexer").
  reflexivity.
Defined.

(** X10: the listing of the mixed directory. *)
Lemma listing_is_sorted_witness :
  exists body console,
    list_sessions unused_toString unused_toNumber VUndef VUndef 2000
      (Dir mixed_directory) = (Ok200 body, console)
    /\ descending (sessions body)
    /\ count body = List.length (sessions body).
Proof.
  eexists. eexists. split; [reflexivity |].
  apply (listing_is_sorted unused_toString unused_toNumber VUndef VUndef 2000
           (Dir mixed_directory) _ _ eq_refl).
Defined.

(** X11: every session of that listing comes from a candidate inside the
    window. *)
Lemma listing_is_sound_witness :
  exists body console,
    list_sessions unused_toString unused_toNumber VUndef VUndef 2000
      (Dir mixed_directory) = (Ok200 body, console)
    /\ forall s, In s (sessions body) ->
         exists f,
           In f mixed_directory
           /\ is_candidate (negb (str_eq VUndef "false")) (name f) = true
           /\ parseSessionFile unused_toString unused_toNumber f = Ok s
           /\ (2000 - window_minutes "undefined" * 60 * 1000
               <= lastUpdated s)%Z.
Proof.
  eexists. eexists. split; [reflexivity |].
  apply (listing_is_sound unused_toString unused_toNumber VUndef VUndef
           "undefined" 2000 mixed_directory _ _ eq_refl eq_refl).
Defined.

(** X12: a window of minus five minutes. *)
Lemma negative_window_lists_nothing_witness :
  list_sessions unused_toString unused_toNumber (VStr "-5") VUndef 2000
    (Dir mixed_directory)
  = (Ok200 {| count := 0; sessions := [] |}, []).
Proof.
  apply (negative_window_lists_nothing unused_toString unused_toNumber
           (VStr "-5") VUndef "-5" 2000 mixed_directory eq_refl).
  - reflexivity.
  - repeat constructor; eexists;
      (split; [reflexivity | split; [reflexivity | simpl; lia]]).
Defined.

(** X14: the counts of the mixed directory, with midnight at 1100. *)
Lemma stats_counts_witness :
  exists fl,
    get_stats unused_toString unused_toNumber 2000 1100 (Dir mixed_directory)
    = Ok200 fl
    /\ totalSessions fl = 3%nat /\ archivedCount fl = 0%nat
    /\ activeSessions fl = 3%Z /\ activeToday fl = 2%nat.
Proof.
  eexists. split; [reflexivity |].
  destruct (stats_counts unused_toString unused_toNumber 2000 1100
              mixed_directory _ eq_refl)
    as (H1 & H2 & H3 & _ & H5 & _).
  repeat split; assumption.
Defined.

(** X16: the listing and the statistics of the mixed directory. *)
Lemma listing_within_stats_witness :
  exists body console fl,
    list_sessions unused_toString unused_toNumber VUndef VUndef 2000
      (Dir mixed_directory) = (Ok200 body, console)
    /\ get_stats unused_toString unused_toNumber 2000 1100
         (Dir mixed_directory) = Ok200 fl
    /\ (count body <= totalSessions fl)%nat.
Proof.
  eexists. eexists. eexists. split; [reflexivity |]. split; [reflexivity |].
  apply (listing_within_stats unused_toString unused_toNumber VUndef VUndef
           2000 2000 1100 mixed_directory _ _ _ eq_refl eq_refl).
Defined.

(** X17: the summary fetched for [0a1b] from the directory that only holds
    its archived variant. *)
Lemma get_session_is_sound_witness :
  exists s,
    get_session unused_toString unused_toNumber "0a1b"
      (Dir archive_only_directory) = Ok200 s
    /\ sessionId s = "0a1b".
Proof.
  eexists. split; [reflexivity |].
  apply (get_session_is_sound unused_toString unused_toNumber "0a1b"
           archive_only_directory _); [| reflexivity].
  split; [discriminate | reflexivity].
Defined.

(** X18: that summary is archived. *)
Lemma fallback_summary_is_archived_witness :
  exists s,
    get_session unused_toString unused_toNumber "0a1b"
      (Dir archive_only_directory) = Ok200 s
    /\ isDeleted s = true /\ status s = archived.
Proof.
  eexists. split; [reflexivity |].
  apply (fallback_summary_is_archived unused_toString unused_toNumber "0a1b"
           archive_only_directory _ eq_refl eq_refl).
Defined.

(** X19: the running log of the mixed directory, fetched by the id of its
    summary. *)
Lemma listed_session_can_be_fetched_witness :
  exists s,
    parseSessionFile unused_toString unused_toNumber running_log = Ok s
    /\ sessionId s = "0a1b"
    /\ get_session unused_toString unused_toNumber (sessionId s)
         (Dir mixed_directory) = Ok200 s.
Proof.
  eexists. split; [reflexivity |].
  apply (listed_session_can_be_fetched unused_toString unused_toNumber "0a1b"
           mixed_directory running_log _).
  - repeat constructor; simpl; intuition discriminate.
  - split; [discriminate | reflexivity].
  - left. reflexivity.
  - reflexivity.
  - reflexivity.
Defined.

(** X21: three sessions with 150, 0 and 300 tokens. *)
Lemma bar_width_in_range_witness :
  (1 <= maxTokens [150; 0; 300])%Q
  /\ (0 <= widthPercent 150 [150; 0; 300])%Q
  /\ (widthPercent 150 [150; 0; 300] <= 100)%Q.
Proof.
  apply (bar_width_in_range 150 [150; 0; 300]%Q).
  - left. reflexivity.
  - discriminate.
Defined.

(** X22: with a window of one minute, the log modified before the first
    date is not skipped; it is logged, and the log next to it is listed. *)
Lemma invalid_date_is_not_summarized_witness :
  summarizable unused_toString unused_toNumber ancient_log = false
  /\ exists body,
       list_sessions unused_toString unused_toNumber (VStr "1") VUndef 2000
         (Dir [ancient_log; running_log])
       = (Ok200 body, ["0d4e.jsonl"])
       /\ count body = 1%nat.
Proof.
  destruct (invalid_date_is_not_summarized unused_toString unused_toNumber
              ancient_log {| mtime := -9000000000000000; birthtime := 0 |}
              eq_refl (or_introl eq_refl)) as [Hs Hscan].
  split; [exact Hs |].
  unfold list_sessions. simpl to_string. cbv iota. simpl readdirSync.
  cbv iota.
  change (candidates (negb (str_eq VUndef "false"))
            [ancient_log; running_log]) with [ancient_log; running_log].
  rewrite (Hscan eq_refl). eexists. split; reflexivity.
Defined.
